(** * Pongverse: the learning core

    A shallow embedding of the reinforcement-learning code of Pongverse
    ([ai/dqn_agent.py] and the tabular agent of [pong_ai.py]) together
    with the properties its specification states about it.

    Conventions of the embedding.

    - Python exceptions are values: every operation that can raise
      returns a [Result], and a method that mutates [self] is a function
      from the object's state to a [Result] and the state the object is
      left in (which, when the method raises half way, is the partially
      updated one).
    - Floating-point numbers are an abstract carrier [F] with the
      operations the code uses on them ([Scalar]); nothing is assumed of
      these operations unless a lemma says so ([ScalarOrder],
      [ExactArith]).  Two carriers are provided: the IEEE 754 formats
      and the exact rationals.
    - numpy, torch and the [random] module are interfaces ([Numpy],
      [Torch]): the sampler, the random generators, exponentiation and
      the gradient step are fields of them, and what is assumed about
      them is stated as contracts ([NumpySpec], [TorchSpec]).
    - Names are resolved as Python resolves them.  The module reaches
      [smooth_l1_loss] through the global name [F], which it never
      binds: reading it raises [NameError].  The module has two class
      statements named [DQNAgent]; the agent is an instance of the
      class the name is bound to once the module has run, the second
      one, and a method that only the first one defines is not an
      attribute of it: calling it raises [AttributeError].
    - Tensor shapes are kept: a batch is a list, a [B,1] column is a list
      read as a column, and the [B,B] result of broadcasting a row
      against a column is a list of rows. *)

From Stdlib Require Import ZArith QArith Qabs Floats.SpecFloat String Lia.
From Stdlib Require Import Lqa.
From stdpp Require Import base list gmap strings.

Local Open Scope string_scope.
Local Open Scope list_scope.
Local Open Scope Z_scope.
Local Open Scope nat_scope.

(** ** Exceptions and results *)

Inductive exn : Type :=
| ValueError (msg : string)
| IndexError (msg : string)
| KeyError (key : string)
| ZeroDivisionError (msg : string)
| NameError (msg : string)
| AttributeError (msg : string)
| LibraryError (msg : string).   (* raised from inside numpy, torch or random *)

Inductive Result (A : Type) : Type :=
| Ok (a : A)
| Raise (e : exn).
Arguments Ok {A} a.
Arguments Raise {A} e.

(** The error the specification calls EmptyBufferError is the
    [ValueError] that [sample] raises on an empty buffer. *)
Definition EmptyBufferError : exn := ValueError "Cannot sample from empty buffer".

(** A result of a library call: a value or the message of the exception
    the library raised. *)
Definition of_library {A : Type} (r : string + A) : Result A :=
  match r with
  | inl msg => Raise (LibraryError msg)
  | inr a => Ok a
  end.

(** ** Methods: state and exceptions *)

Definition M (S A : Type) : Type := S → Result A * S.

Definition ret {S A : Type} (a : A) : M S A := λ s, (Ok a, s).

Definition bind {S A B : Type} (m : M S A) (k : A → M S B) : M S B :=
  λ s, match m s with
       | (Ok a, s') => k a s'
       | (Raise e, s') => (Raise e, s')
       end.

Definition get {S : Type} : M S S := λ s, (Ok s, s).
Definition modify {S : Type} (f : S → S) : M S unit := λ s, (Ok tt, f s).
Definition liftR {S A : Type} (r : Result A) : M S A := λ s, (r, s).

(** A library call that advances a generator or another state of the
    library: one that cannot raise, and one that can. *)
Definition call {S A : Type} (f : S → A * S) : M S A :=
  λ s, let '(a, s') := f s in (Ok a, s').
Definition call_raising {S A : Type} (f : S → (string + A) * S) : M S A :=
  λ s, let '(r, s') := f s in (of_library r, s').

(** A method of a member object run on the owner: [proj] reads the
    member, [inj] writes it back. *)
Definition on_member {S T A : Type} (proj : S → T) (inj : T → S → S)
    (m : M T A) : M S A :=
  λ s, let '(r, t') := m (proj s) in (r, inj t' s).

#[global] Instance Result_ret : MRet Result := λ A a, Ok a.
#[global] Instance Result_bind : MBind Result := λ A B k r,
  match r with
  | Ok a => k a
  | Raise e => Raise e
  end.
#[global] Instance M_ret {S : Type} : MRet (M S) := λ A a, ret a.
#[global] Instance M_bind {S : Type} : MBind (M S) := λ A B k m, bind m k.

(** ** Numbers *)

Class Scalar (F : Type) : Type := {
  f_zero : F;
  f_one : F;
  f_add : F → F → F;
  f_sub : F → F → F;
  f_mul : F → F → F;
  f_div : F → F → F;
  f_neg : F → F;
  f_abs : F → F;
  f_ltb : F → F → bool;          (* x < y *)
  f_of_nat : nat → F;            (* int to float *)
  f_to_int : F → Z;              (* int(x): towards zero *)
}.

(** Python's [x > y]. *)
Definition f_gtb {F} `{Scalar F} (x y : F) : bool := f_ltb y x.

(** Facts of the order that hold of IEEE numbers too, where every
    comparison with a NaN is false. *)
Class ScalarOrder (F : Type) `{Scalar F} : Prop := {
  f_ltb_irrefl : ∀ x : F, f_ltb x x = false;
  f_ltb_trans : ∀ x y z : F, f_ltb x y = true → f_ltb y z = true → f_ltb x z = true;
  f_one_nonneg : f_ltb f_one f_zero = false;
}.

(** Facts that hold of exact arithmetic only: with rounding, the
    product of the smallest positive number and a rate below one is
    that number again. *)
Class ExactArith (F : Type) `{Scalar F} : Prop := {
  f_ltb_cotrans : ∀ x y z : F, f_ltb x y = true → f_ltb x z = true ∨ f_ltb z y = true;
  f_mul_contract : ∀ x d : F,
    f_ltb f_zero x = true → f_ltb d f_one = true → f_ltb (f_mul x d) x = true;
  f_mul_noninc : ∀ x d : F,
    f_ltb x f_zero = false → f_ltb d f_one = true → f_ltb x (f_mul x d) = false;
}.

(** Python's builtin [max] over an iterable keeps the first maximal item:
    the running maximum is replaced only by an item that is [>] it. *)
Definition py_max_from {F} `{Scalar F} (x : F) (xs : list F) : F :=
  fold_left (λ m y, if f_gtb y m then y else m) xs x.

Definition py_max {F} `{Scalar F} (xs : list F) : Result F :=
  match xs with
  | [] => Raise (ValueError "max() arg is an empty sequence")
  | x :: xs' => Ok (py_max_from x xs')
  end.

(** [max(a, b)] with two arguments. *)
Definition py_max2 {F} `{Scalar F} (a b : F) : F := py_max_from a [b].

(** [a % b] on Python integers: the sign of the divisor, as [Z.modulo];
    a zero divisor raises. *)
Definition py_mod (a b : Z) : Result Z :=
  if (b =? 0)%Z then Raise (ZeroDivisionError "integer modulo by zero")
  else Ok (a `mod` b)%Z.

(** ** numpy as the replay buffer uses it *)

Class Numpy (F : Type) : Type := {
  RandomState : Type;            (* the generator behind np.random *)
  np_power : F → F → F;          (* x ** y *)
  (* np.random.choice(a, size, p=p): an array of [size] indices *)
  np_random_choice : RandomState → nat → Z → list F → (string + list nat) * RandomState;
  (* whether np.random.choice accepts [p] as a distribution: no NaN, no
     negative entry, sum 1 up to its tolerance *)
  np_valid_p : list F → bool;
  (* whether [a[i] = v] still takes an array [v] of one element for
     that element: numpy up to 2.3 does (with a DeprecationWarning
     since 1.25), numpy 2.4 and later refuse it like any other array *)
  np_size_one_item : bool;
}.

(** What is assumed of [np.random.choice]: the array it returns has the
    requested size and its entries are below [a]; it returns one
    whenever [a] is positive, the size is not negative and [p] is a
    distribution over [a] outcomes. *)
Class NumpySpec (F : Type) `{Numpy F} : Prop := {
  np_random_choice_sound : ∀ g a size p idx g',
    np_random_choice g a size p = (inr idx, g') →
    Z.of_nat (length idx) = size ∧ Forall (λ i, i < a) idx;
  np_random_choice_total : ∀ g a size p,
    0 < a → (0 ≤ size)%Z → length p = a → np_valid_p p = true →
    ∃ idx g', np_random_choice g a size p = (inr idx, g');
}.

(** ** numpy arrays of one dimension *)

(** What a numpy expression can hand to an element assignment: a scalar
    or an array. *)
Inductive np_value (F : Type) : Type :=
| np_scalar (x : F)
| np_array (xs : list F).
Arguments np_scalar {F} x.
Arguments np_array {F} xs.

(** An index into an axis of length [n]; negative indices count from the
    end. *)
Definition np_index (n : nat) (idx : Z) : Result nat :=
  if ((0 <=? idx) && (idx <? Z.of_nat n))%Z then Ok (Z.to_nat idx)
  else if ((- Z.of_nat n <=? idx) && (idx <? 0))%Z then Ok (Z.to_nat (idx + Z.of_nat n))
  else Raise (IndexError "index out of bounds").

(** The value stored by [a[idx] = v]: a scalar.  An array cannot be
    stored in one slot; an array of exactly one element is taken for
    its element by the versions of numpy that still convert it. *)
Definition np_item {F} `{Numpy F} (v : np_value F) : Result F :=
  match v with
  | np_scalar x => Ok x
  | np_array xs =>
      match xs with
      | [x] => if np_size_one_item then Ok x
               else Raise (ValueError "setting an array element with a sequence.")
      | _ => Raise (ValueError "setting an array element with a sequence.")
      end
  end.

Definition np_setitem {F} `{Numpy F} (a : list F) (idx : Z) (v : np_value F)
  : Result (list F) :=
  match np_index (length a) idx with
  | Raise e => Raise e
  | Ok i =>
      match np_item v with
      | Raise e => Raise e
      | Ok x => Ok (<[i:=x]> a)
      end
  end.

(** [l[i] = x] on a Python list, for a non-negative [i]. *)
Definition list_setitem {A} (l : list A) (i : nat) (x : A) : Result (list A) :=
  if i <? length l then Ok (<[i:=x]> l)
  else Raise (IndexError "list assignment index out of range").

(** [l[i]] on a Python list or a numpy array, for a non-negative [i]. *)
Definition getitem {A} (l : list A) (i : nat) : Result A :=
  match l !! i with
  | Some x => Ok x
  | None => Raise (IndexError "index out of range")
  end.

(** [[f(x) for x in l]] where [f] can raise: the first exception wins. *)
Fixpoint mapR {A B} (f : A → Result B) (l : list A) : Result (list B) :=
  match l with
  | [] => Ok []
  | x :: l' =>
      match f x with
      | Raise e => Raise e
      | Ok y =>
          match mapR f l' with
          | Raise e => Raise e
          | Ok ys => Ok (y :: ys)
          end
      end
  end.

Definition np_sum {F} `{Scalar F} (xs : list F) : F := fold_left f_add xs f_zero.

(** [a.max()]: raises on an array without elements. *)
Definition np_max {F} `{Scalar F} (xs : list F) : Result F :=
  match xs with
  | [] => Raise (ValueError "zero-size array to reduction operation maximum which has no identity")
  | x :: xs' => Ok (py_max_from x xs')
  end.

(** ** The experience store: [PrioritizedReplayBuffer] *)

Module PrioritizedReplayBuffer.
Section Buffer.
Context {F : Type} `{Scalar F} `{Numpy F}.

Record Transition : Type := mkTransition {
  state : list F;
  action : Z;
  reward : F;
  next_state : list F;
  done : bool;
}.

Record t : Type := mkBuffer {
  capacity : nat;
  alpha : F;
  priorities : list F;          (* np.zeros((capacity,)) *)
  buffer : list Transition;
  position : nat;
}.

Definition set_priorities (p : list F) (self : t) : t :=
  mkBuffer (capacity self) (alpha self) p (buffer self) (position self).
Definition set_buffer (b : list Transition) (self : t) : t :=
  mkBuffer (capacity self) (alpha self) (priorities self) b (position self).
Definition set_position (p : nat) (self : t) : t :=
  mkBuffer (capacity self) (alpha self) (priorities self) (buffer self) p.

Definition __init__ (capacity : nat) (alpha : F) : t :=
  mkBuffer capacity alpha (replicate capacity f_zero) [] 0.

(** [max(self.priorities) if self.buffer else 1.0]. *)
Definition max_priority (self : t) : Result F :=
  match buffer self with
  | [] => Ok f_one
  | _ :: _ => py_max (priorities self)
  end.

(** [push]: save a transition with maximum priority. *)
Definition push (tr : Transition) : M t unit :=
  self ← get;
  max_priority ← liftR (max_priority self);
  (if length (buffer self) <? capacity self
   then modify (set_buffer (buffer self ++ [tr]))
   else (b' ← liftR (list_setitem (buffer self) (position self) tr);
         modify (set_buffer b')));;
  p' ← liftR (np_setitem (priorities self) (Z.of_nat (position self))
                          (np_scalar max_priority));
  modify (set_priorities p');;
  pos ← liftR (py_mod (Z.of_nat (position self) + 1) (Z.of_nat (capacity self)));
  modify (set_position (Z.to_nat pos)).

(** The sampling distribution: [priorities[:len(buffer)] ** alpha],
    divided by its sum. *)
Definition probabilities (self : t) : list F :=
  let priorities := take (length (buffer self)) (priorities self) in
  let probabilities := map (λ p, np_power p (alpha self)) priorities in
  let total := np_sum probabilities in
  map (λ p, f_div p total) probabilities.

(** [sample(batch_size, beta)]: reads the buffer, advances the
    generator. *)
Definition sample (batch_size : Z) (beta : F) (self : t)
  : M RandomState (list Transition * list nat * list F) :=
  if length (buffer self) =? 0 then liftR (Raise EmptyBufferError)
  else
    let probabilities := probabilities self in
    indices ← call_raising (λ g, np_random_choice g (length (buffer self))
                                                  batch_size probabilities);
    drawn ← liftR (mapR (getitem probabilities) indices);
    let weights := map (λ p, np_power (f_mul (f_of_nat (length (buffer self))) p)
                                      (f_neg beta)) drawn in
    top ← liftR (np_max weights);
    let weights := map (λ w, f_div w top) weights in
    batch ← liftR (mapR (getitem (buffer self)) indices);
    ret (batch, indices, weights).

(** [update_priorities(indices, priorities)]: the loop over
    [zip(indices, priorities)]; an assignment that raises leaves the
    earlier ones in place. *)
Fixpoint update_priorities (indices : list Z) (new_priorities : list (np_value F))
  : M t unit :=
  match indices, new_priorities with
  | idx :: indices', priority :: new_priorities' =>
      self ← get;
      p' ← liftR (np_setitem (priorities self) idx priority);
      modify (set_priorities p');;
      update_priorities indices' new_priorities'
  | _, _ => ret tt
  end.

(** *** The invariant of the store *)

(** The priorities of the transitions held. *)
Definition held (self : t) : list F :=
  take (length (buffer self)) (priorities self).

(** The priority array has one slot per place of the ring; the slots
    of the transitions held are not negative and the others still
    hold the zero they were created with. *)
Record wf (self : t) : Prop := mkWf {
  wf_capacity : 0 < capacity self;
  wf_priorities : length (priorities self) = capacity self;
  wf_held : Forall (λ p, f_ltb p f_zero = false) (held self);
  wf_free : Forall (λ p, p = f_zero) (drop (length (buffer self)) (priorities self));
}.

(** The buffer is the ring image of the transitions pushed so far, in
    the order of their arrival: the k-th one sits in slot
    [k mod capacity] as long as it is among the last [capacity], and
    the cursor is where the next one goes. *)
Record ring_of (self : t) (pushed : list Transition) : Prop := mkRing {
  ring_position : position self = length pushed `mod` capacity self;
  ring_length : length (buffer self) = length pushed `min` capacity self;
  ring_slots : ∀ k, k < length pushed → length pushed ≤ k + capacity self →
                    buffer self !! (k `mod` capacity self) = pushed !! k;
}.

(** The store after a method ran, whatever the method returned. *)
Definition after {S A} (m : M S A) (s : S) : S := (m s).2.

End Buffer.
Arguments Transition F : clear implicits.
Arguments t F : clear implicits.
End PrioritizedReplayBuffer.

(** ** The function approximator: [DQNetwork] *)

Section Network.
Context {F : Type} `{Scalar F}.

(** [nn.Linear(in, out)]: [out] rows of [in] weights, and [out]
    biases. *)
Record Linear : Type := mkLinear {
  weight : list (list F);
  bias : list F;
}.

Definition dot (w x : list F) : F := np_sum (zip_with f_mul w x).

(** The layer on one row [x] of [in] numbers.  (torch refuses a row
    of another length; the rows the agent feeds its networks are the
    states of stored transitions, which [stored_for] takes to have
    the configured length.) *)
Definition linear (l : Linear) (x : list F) : list F :=
  zip_with f_add (map (λ row, dot row x) (weight l)) (bias l).

Definition relu (x : F) : F := if f_gtb x f_zero then x else f_zero.

(** [nn.Sequential(Linear, ReLU, Linear, ReLU, Linear)]; the fields
    are named after the positions of the three linear layers. *)
Record DQNetwork : Type := mkDQNetwork {
  network_0 : Linear;
  network_2 : Linear;
  network_4 : Linear;
}.

Definition forward (net : DQNetwork) (x : list F) : list F :=
  linear (network_4 net)
    (map relu (linear (network_2 net)
       (map relu (linear (network_0 net) x)))).

(** The shapes of the tensors of a layer and of a network: a weight
    matrix is the lengths of its rows, a bias its length. *)
Definition linear_shape (l : Linear) : list nat * nat :=
  (map length (weight l), length (bias l)).

Definition shape_of (net : DQNetwork) : (list nat * nat) * (list nat * nat) * (list nat * nat) :=
  (linear_shape (network_0 net), linear_shape (network_2 net), linear_shape (network_4 net)).

(** The shapes [DQNetwork(config)] is built with. *)
Definition architecture (state_dim hidden_dim action_dim : nat)
  : (list nat * nat) * (list nat * nat) * (list nat * nat) :=
  ((replicate hidden_dim state_dim, hidden_dim),
   (replicate hidden_dim hidden_dim, hidden_dim),
   (replicate action_dim hidden_dim, action_dim)).

(** [q.max(1)[1]] on one row: the index of the first largest entry. *)
Fixpoint argmax_from (best : F) (best_i i : nat) (xs : list F) : nat :=
  match xs with
  | [] => best_i
  | x :: xs' =>
      if f_gtb x best then argmax_from x i (S i) xs'
      else argmax_from best best_i (S i) xs'
  end.

Definition torch_argmax (xs : list F) : Result nat :=
  match xs with
  | [] => Raise (LibraryError "max(): expected reduction dim to have non-zero size")
  | x :: xs' => Ok (argmax_from x 0 1 xs')
  end.

(** [q.gather(1, index)] on one row, for one index. *)
Definition torch_gather (row : list F) (index : Z) : Result F :=
  if ((0 <=? index) && (index <? Z.of_nat (length row)))%Z
  then getitem row (Z.to_nat index)
  else Raise (LibraryError "index out of range in gather").

(** [[f(x, y) for x, y in zip(xs, ys)]] where [f] can raise. *)
Definition zipR {A B C} (f : A → B → Result C) (xs : list A) (ys : list B)
  : Result (list C) :=
  mapR (λ xy, f xy.1 xy.2) (zip xs ys).

(** *** Broadcasting

    A tensor of shape [B] is a list; a tensor of shape [B,1] is a list
    too, read as a column; a tensor of shape [B,B] is the list of its
    rows.  An operation on a [B] tensor and a [B,1] tensor broadcasts
    both to [B,B]: entry (i, j) combines entry j of the first with
    entry i of the second. *)
Definition row_op_column (op : F → F → F) (row column : list F) : list (list F) :=
  map (λ c, map (λ r, op r c) row) column.

(** [B] with [B,B]: entry (i, j) combines entry j of the row with
    entry (i, j) of the matrix. *)
Definition row_op_matrix (op : F → F → F) (row : list F) (matrix : list (list F))
  : list (list F) :=
  map (λ mrow, zip_with op row mrow) matrix.

(** [B,B] with [B,1]: entry (i, j) combines entry (i, j) of the matrix
    with entry i of the column. *)
Definition matrix_op_column (op : F → F → F) (matrix : list (list F)) (column : list F)
  : list (list F) :=
  zip_with (λ mrow c, map (λ e, op e c) mrow) matrix column.

(** [B,1] with [B,B], the column first. *)
Definition column_op_matrix (op : F → F → F) (column : list F) (matrix : list (list F))
  : list (list F) :=
  zip_with (λ c mrow, map (λ e, op c e) mrow) column matrix.

(** [torch.FloatTensor] of a list of booleans. *)
Definition f_of_bool (b : bool) : F := if b then f_one else f_zero.

Definition f_half : F := f_div f_one (f_add f_one f_one).

(** [smooth_l1_loss(input, target, reduction='none')] of
    [torch.nn.functional] on one pair, with its default threshold 1:
    what line 265 names as [F.smooth_l1_loss]. *)
Definition smooth_l1_loss (input target : F) : F :=
  let d := f_abs (f_sub input target) in
  if f_ltb d f_one then f_mul f_half (f_mul d d) else f_sub d f_half.

(** [x.mean()] of a matrix: the sum of all entries over their number. *)
Definition matrix_mean (m : list (list F)) : F :=
  f_div (np_sum (concat m)) (f_of_nat (length (concat m))).

End Network.
Arguments Linear F : clear implicits.
Arguments DQNetwork F : clear implicits.

(** ** torch and the [random] module as the agent uses them *)

Class Torch (F : Type) `{Scalar F} : Type := {
  PyRandom : Type;               (* the generator behind random *)
  random_random : PyRandom → F * PyRandom;
  random_randrange : PyRandom → Z → (string + Z) * PyRandom;
  Optimizer : Type;              (* the state of optim.Adam *)
  (* optim.Adam(net.parameters(), lr=lr) *)
  adam : DQNetwork F → F → Optimizer;
  (* zero_grad(); loss.backward(); clip_grad_norm_(parameters, 1.0);
     step(): the loss is given as a function of the trained parameters *)
  optimizer_step : Optimizer → (DQNetwork F → F) → DQNetwork F → DQNetwork F * Optimizer;
}.

(** What is assumed of [random.randrange(n)]: for a positive [n] it
    returns an integer of [0, n). *)
Class TorchSpec (F : Type) `{Torch F} : Prop := {
  random_randrange_range : ∀ g n, (0 < n)%Z →
    ∃ k g', random_randrange g n = (inr k, g') ∧ (0 ≤ k < n)%Z;
}.

(** ** The learning agent: [DQNAgent] *)

Module DQNAgent.
Import PrioritizedReplayBuffer.

(** *** The names of the module

    The names that the module binds at its top level: by its imports
    (lines 11-20), by its assignments (lines 24-30) and by its class
    statements. *)
Definition module_globals : list string :=
  ["Tuple"; "List"; "Optional"; "Dict"; "np"; "torch"; "nn"; "optim";
   "dataclass"; "namedtuple"; "random"; "logging"; "SummaryWriter";
   "logger"; "Transition"; "State"; "Action";
   "DQNConfig"; "PrioritizedReplayBuffer"; "DQNetwork"; "DQNAgent"].

(** Reading a name that is not local to the function that reads it:
    the name is looked up among the globals of the module (and then
    among the builtins, which have none of the names read this way
    here); a name that is not bound raises [NameError]. *)
Definition load_global (name : string) : Result unit :=
  if existsb (String.eqb name) module_globals then Ok tt
  else Raise (NameError ("name '" +:+ name +:+ "' is not defined")).

(** A class statement binds its name to a new class, which has the
    functions that its body defines; a later class statement with the
    same name binds the name again, and the class it was bound to is
    no longer what the name stands for.  These are the class statements
    of the module that have neither a base class nor a decorator, in
    the order the module runs them, each with the functions its body
    defines. *)
Definition class_statements : list (string * list string) :=
  [("PrioritizedReplayBuffer", ["__init__"; "push"; "sample"; "update_priorities"]);
   ("DQNAgent",
    ["__init__"; "select_action"; "optimize_model"; "save_model"; "load_model"]);
   ("DQNAgent", ["__init__"; "optimize_model"])].

Definition run_class_statements (statements : list (string * list string))
  : gmap string (list string) :=
  foldl (λ classes statement, <[statement.1 := statement.2]> classes) ∅ statements.

(** The classes of the module once it has run. *)
Definition module_classes : gmap string (list string) :=
  run_class_statements class_statements.

(** [obj.name], for a method [name], on an instance of the class that
    [cls] stands for.  The instances of these classes hold data
    attributes only, and [object], the only base of the classes, has
    none of the methods looked up here: the method is found when the
    class has it, and the lookup raises [AttributeError] otherwise. *)
Definition getattr (cls name : string) : Result unit :=
  match module_classes !! cls with
  | None => Raise (NameError ("name '" +:+ cls +:+ "' is not defined"))
  | Some functions =>
      if existsb (String.eqb name) functions then Ok tt
      else Raise (AttributeError
                    ("'" +:+ cls +:+ "' object has no attribute '" +:+ name +:+ "'"))
  end.

(** [agent.name(...)] on an agent: the method is looked up when the
    call is made, and [body], the function defined under that name,
    runs only if the lookup finds it. *)
Definition method {S A : Type} (name : string) (body : M S A) : M S A :=
  liftR (getattr "DQNAgent" name);; body.

Section Agent.
Context {F : Type} `{Torch F} `{Numpy F}.

Record DQNConfig : Type := mkConfig {
  state_dim : Z;
  action_dim : Z;
  hidden_dim : Z;
  learning_rate : F;
  gamma : F;
  buffer_size : nat;
  batch_size : Z;
  target_update : Z;
  epsilon_start : F;
  epsilon_end : F;
  epsilon_decay : F;
  priority_alpha : F;
  priority_beta : F;
  priority_epsilon : F;
}.

(** The attributes of an agent, as [__init__] of the second class
    statement sets them (lines 239-248); [device], which only says
    where the tensors live, is left out. *)
Record t : Type := mkAgent {
  config : DQNConfig;
  policy_net : DQNetwork F;
  target_net : DQNetwork F;
  optimizer : Optimizer;
  memory : PrioritizedReplayBuffer.t F;
  epsilon : F;
  steps : Z;
  writer : list (string * F * Z);     (* the scalars logged: tag, value, step *)
}.

Definition set_policy_net (n : DQNetwork F) (self : t) : t :=
  mkAgent (config self) n (target_net self) (optimizer self) (memory self)
          (epsilon self) (steps self) (writer self).
Definition set_target_net (n : DQNetwork F) (self : t) : t :=
  mkAgent (config self) (policy_net self) n (optimizer self) (memory self)
          (epsilon self) (steps self) (writer self).
Definition set_optimizer (o : Optimizer) (self : t) : t :=
  mkAgent (config self) (policy_net self) (target_net self) o (memory self)
          (epsilon self) (steps self) (writer self).
Definition set_memory (m : PrioritizedReplayBuffer.t F) (self : t) : t :=
  mkAgent (config self) (policy_net self) (target_net self) (optimizer self) m
          (epsilon self) (steps self) (writer self).
Definition set_epsilon (e : F) (self : t) : t :=
  mkAgent (config self) (policy_net self) (target_net self) (optimizer self) (memory self)
          e (steps self) (writer self).
Definition set_steps (n : Z) (self : t) : t :=
  mkAgent (config self) (policy_net self) (target_net self) (optimizer self) (memory self)
          (epsilon self) n (writer self).
Definition add_scalar (tag : string) (value : F) (step : Z) (self : t) : t :=
  mkAgent (config self) (policy_net self) (target_net self) (optimizer self) (memory self)
          (epsilon self) (steps self) (writer self ++ [(tag, value, step)]).

(** *** [load_state_dict]

    [module.load_state_dict(d)] copies into the module every tensor of
    [d] whose shape is the shape of the module's own tensor, and raises
    afterwards if some tensor did not fit. *)
Definition load_linear (input self : Linear F) : Linear F * bool :=
  let weight_fits := bool_decide (map length (weight input) = map length (weight self)) in
  let bias_fits := bool_decide (length (bias input) = length (bias self)) in
  (mkLinear (if weight_fits then weight input else weight self)
            (if bias_fits then bias input else bias self),
   weight_fits && bias_fits).


Definition load_state_dict (state_dict : DQNetwork F) : M (DQNetwork F) unit :=
  λ self,
    let '(l0, fits0) := load_linear (network_0 state_dict) (network_0 self) in
    let '(l2, fits2) := load_linear (network_2 state_dict) (network_2 self) in
    let '(l4, fits4) := load_linear (network_4 state_dict) (network_4 self) in
    (if fits0 && fits2 && fits4 then Ok tt
     else Raise (LibraryError "Error(s) in loading state_dict for DQNetwork"),
     mkDQNetwork l0 l2 l4).

(** [__init__(config)]; [net] is the freshly initialised
    [DQNetwork(config)]. *)
Definition __init__ (config : DQNConfig) (net : DQNetwork F) : t :=
  mkAgent config net net (adam net (learning_rate config))
          (PrioritizedReplayBuffer.__init__ (buffer_size config) (priority_alpha config))
          (epsilon_start config) 0 [].

(** *** [select_action], of the first class statement

    The function that the first class statement defines under this
    name (lines 139-147).  The agent does not have it: a call goes
    through [method]. *)
Definition select_action (state : list F) (self : t) : M PyRandom Z :=
  u ← call random_random;
  if f_ltb u (epsilon self)
  then call_raising (λ g, random_randrange g (action_dim (config self)))
  else
    a ← liftR (torch_argmax (forward (policy_net self) state));
    mret (Z.of_nat a).

(** *** [optimize_model] *)

(** [reward_batch + (1 - done_batch) * gamma * next_state_values],
    where the first two are [B] tensors and the last is the [B,1]
    tensor returned by [gather]. *)
Definition expected_q_values (gamma : F) (reward_batch done_batch next_state_values : list F)
  : list (list F) :=
  row_op_matrix f_add reward_batch
    (row_op_column f_mul (map (λ d, f_mul (f_sub f_one d) gamma) done_batch)
                   next_state_values).

(** The block under [torch.no_grad()]. *)
Definition double_q_targets (policy_net target_net : DQNetwork F) (gamma : F)
    (batch : list (Transition F)) : Result (list (list F)) :=
  let reward_batch := map reward batch in
  let next_state_batch := map next_state batch in
  let done_batch := map (λ tr, f_of_bool (done tr)) batch in
  next_actions ← mapR (λ s, torch_argmax (forward policy_net s)) next_state_batch;
  next_state_values ← zipR torch_gather (map (forward target_net) next_state_batch)
                                        (map Z.of_nat next_actions);
  mret (expected_q_values gamma reward_batch done_batch next_state_values).

(** The target of one transition as the specification words it:
    [reward + (1 - done) * gamma * target_net(next_state)[a]] with [a]
    the argmax of the online network on [next_state].  This follows
    the specification, not the code, and is what [double_q_targets]
    is compared with. *)
Definition specified_target (policy_net target_net : DQNetwork F) (gamma : F)
    (tr : Transition F) : Result F :=
  a ← torch_argmax (forward policy_net (next_state tr));
  v ← torch_gather (forward target_net (next_state tr)) (Z.of_nat a);
  mret (f_add (reward tr) (f_mul (f_mul (f_sub f_one (f_of_bool (done tr))) gamma) v)).

(** [net(state_batch).gather(1, action_batch.unsqueeze(1))], a [B,1]
    tensor. *)
Definition current_q (net : DQNetwork F) (batch : list (Transition F)) : Result (list F) :=
  zipR torch_gather (map (forward net) (map state batch)) (map action batch).

(** [(weights * smooth_l1_loss(current, expected, reduction='none')).mean()]. *)
Definition weighted_loss (weights current : list F) (expected : list (list F)) : F :=
  matrix_mean (row_op_matrix f_mul weights
                 (column_op_matrix smooth_l1_loss current expected)).

Definition this {S} : M (t * S) t := λ s, (Ok s.1, s).
Definition update_self {S} (f : t → t) : M (t * S) unit := modify (prod_map f id).
Definition on_self {S A} (m : M t A) : M (t * S) A :=
  on_member fst (λ a s, (a, s.2)) m.
Definition on_generator {S G A} (m : M G A) : M (S * G) A :=
  on_member snd (λ g s, (s.1, g)) m.

(** [optimize_model] of the second class statement (lines 250-285),
    statement by statement.  The statements after line 265 are
    embedded as they are written, although no call reaches them
    ([optimize_model_outcome] below). *)
Definition optimize_model : M (t * RandomState) F :=
  self ← this;
  let cfg := config self in
  if (Z.of_nat (length (buffer (memory self))) <? batch_size cfg)%Z then mret f_zero
  else
    '(batch, indices, weights) ←
        on_generator (sample (batch_size cfg) (priority_beta cfg) (memory self));
    expected ← liftR (double_q_targets (policy_net self) (target_net self) (gamma cfg) batch);
    current ← liftR (current_q (policy_net self) batch);
    let td_errors := map (map f_abs) (matrix_op_column f_sub expected current) in
    (* line 265: the tensor of the weights is built, then the global
       name F is read *)
    liftR (load_global "F");;
    let loss := weighted_loss weights current expected in
    let loss_of net := match current_q net batch with
                       | Ok c => weighted_loss weights c expected
                       | Raise _ => loss
                       end in
    update_self (λ s, let '(net, opt) := optimizer_step (optimizer s) loss_of (policy_net s)
                      in set_optimizer opt (set_policy_net net s));;
    on_self (on_member memory set_memory
               (update_priorities (map Z.of_nat indices)
                  (map (λ row, np_array (map (λ e, f_add e (priority_epsilon cfg)) row))
                       td_errors)));;
    self ← this;
    r ← liftR (py_mod (steps self) (target_update cfg));
    (if (r =? 0)%Z
     then on_self (on_member target_net set_target_net (load_state_dict (policy_net self)))
     else mret tt);;
    update_self (λ s, set_epsilon (py_max2 (epsilon_end cfg)
                                           (f_mul (epsilon s) (epsilon_decay cfg))) s);;
    update_self (λ s, set_steps (steps s + 1)%Z s);;
    self ← this;
    update_self (add_scalar "Loss" loss (steps self));;
    update_self (add_scalar "Epsilon" (epsilon self) (steps self));;
    update_self (add_scalar "Buffer Size" (f_of_nat (length (buffer (memory self))))
                            (steps self));;
    mret loss.

(** *** The invariant of the agent and its runs *)

(** Both networks have the shapes the configuration gives them. *)
Definition well_formed (self : t) : Prop :=
  shape_of (policy_net self)
    = architecture (Z.to_nat (state_dim (config self)))
                   (Z.to_nat (hidden_dim (config self)))
                   (Z.to_nat (action_dim (config self))) ∧
  shape_of (target_net self) = shape_of (policy_net self).

(** What a training driver does to the agent between two
    observations: it stores a transition or it optimizes; an
    exception of either call is the driver's to handle and leaves the
    agent as the call left it. *)
Inductive event : Type :=
| Push (tr : Transition F)
| Optimize.

Definition run_event (ev : event) (s : t * RandomState) : t * RandomState :=
  match ev with
  | Push tr => (on_self (on_member memory set_memory (push tr)) s).2
  | Optimize => (optimize_model s).2
  end.

Definition run (evs : list event) (s : t * RandomState) : t * RandomState :=
  foldl (λ s ev, run_event ev s) s evs.

End Agent.
Arguments DQNConfig F : clear implicits.
Arguments t F {_ _}.
End DQNAgent.

(** ** The tabular variant: [QAgent] of [pong_ai.py] *)

Module QAgent.
Section Tabular.
Context {F : Type} `{Scalar F}.

Definition SCREEN_WIDTH : nat := 800.
Definition SCREEN_HEIGHT : nat := 500.
Definition BALL_SPEED : nat := 7.
Definition STATE_BINS : list nat := [12; 12; 6; 6].
Definition ACTIONS : list Z := [0; 1; 2]%Z.
Definition ALPHA : F := f_div (f_of_nat 1) (f_of_nat 10).
Definition GAMMA : F := f_div (f_of_nat 95) (f_of_nat 100).
Definition EPSILON_START : F := f_of_nat 1.
Definition EPSILON_MIN : F := f_div (f_of_nat 2) (f_of_nat 100).
Definition EPSILON_DECAY : F := f_div (f_of_nat 998) (f_of_nat 1000).

(** *** numpy arrays of several dimensions *)

(** An array is its shape and its entries in row-major order. *)
Record ndarray : Type := mkArray {
  shape : list nat;
  data : list F;
}.

Definition size_of (shape : list nat) : nat := fold_right Nat.mul 1 shape.

Definition np_zeros (shape : list nat) : ndarray :=
  mkArray shape (replicate (size_of shape) f_zero).

(** Where the sub-array selected by a tuple of integers starts, and
    its shape; the tuple is no longer than the shape. *)
Fixpoint locate (shape : list nat) (index : list Z) : Result (nat * list nat) :=
  match index with
  | [] => Ok (0, shape)
  | i :: index' =>
      match shape with
      | [] => Raise (IndexError "too many indices for array")
      | n :: shape' =>
          k ← np_index n i;
          '(offset, rest) ← locate shape' index';
          mret (k * size_of shape' + offset, rest)
      end
  end.

Definition np_locate (a : ndarray) (index : list Z) : Result (nat * list nat) :=
  if length (shape a) <? length index
  then Raise (IndexError "too many indices for array")
  else locate (shape a) index.

(** [a[index]]: the selected sub-array (a single entry when the tuple
    is as long as the shape). *)
Definition np_getitem (a : ndarray) (index : list Z) : Result ndarray :=
  '(offset, rest) ← np_locate a index;
  mret (mkArray rest (take (size_of rest) (drop offset (data a)))).

(** [a[index] += v], where [v] has the shape of the selected
    sub-array. *)
Definition np_iadd (a : ndarray) (index : list Z) (v : list F) : Result ndarray :=
  '(offset, rest) ← np_locate a index;
  let selected := take (size_of rest) (drop offset (data a)) in
  mret (mkArray (shape a)
          (take offset (data a) ++ zip_with f_add selected v
             ++ drop (offset + size_of rest) (data a))).

(** *** The agent *)

Record t : Type := mkQAgent {
  q_table : ndarray;
  alpha : F;
  gamma : F;
  epsilon : F;
  epsilon_min : F;
  epsilon_decay : F;
  last_state : option (list Z);
  last_action : option Z;
  difficulty : string;
}.

Definition set_q_table (q : ndarray) (self : t) : t :=
  mkQAgent q (alpha self) (gamma self) (epsilon self) (epsilon_min self)
           (epsilon_decay self) (last_state self) (last_action self) (difficulty self).
Definition set_epsilon (e : F) (self : t) : t :=
  mkQAgent (q_table self) (alpha self) (gamma self) e (epsilon_min self)
           (epsilon_decay self) (last_state self) (last_action self) (difficulty self).

(** [np.zeros(bins + (len(ACTIONS),))] with [bins = STATE_BINS]. *)
Definition __init__ (difficulty : string) : t :=
  mkQAgent (np_zeros (STATE_BINS ++ [length ACTIONS]))
           ALPHA GAMMA EPSILON_START EPSILON_MIN EPSILON_DECAY None None difficulty.

Record Ball : Type := mkBall { ball_x : F; ball_y : F; ball_vx : F; ball_vy : F }.
Record Paddle : Type := mkPaddle { paddle_y : F }.

(** [STATE_BINS[k]] for the constant indices the code uses. *)
Definition bins (k : nat) : nat := nth k STATE_BINS 0.

Definition discretize_state (ball : Ball) (paddle : Paddle) : list Z :=
  let bx := f_to_int (f_div (f_mul (ball_x ball) (f_of_nat (bins 0)))
                            (f_of_nat SCREEN_WIDTH)) in
  let by_ := f_to_int (f_div (f_mul (ball_y ball) (f_of_nat (bins 1)))
                             (f_of_nat SCREEN_HEIGHT)) in
  let bvx := f_to_int (f_div (f_mul (f_add (ball_vx ball) (f_of_nat BALL_SPEED))
                                    (f_of_nat (bins 2)))
                             (f_of_nat (2 * BALL_SPEED))) in
  let bvy := f_to_int (f_div (f_mul (f_add (ball_vy ball) (f_of_nat BALL_SPEED))
                                    (f_of_nat (bins 3)))
                             (f_of_nat (2 * BALL_SPEED))) in
  let py := f_to_int (f_div (f_mul (paddle_y paddle) (f_of_nat (bins 1)))
                            (f_of_nat SCREEN_HEIGHT)) in
  [bx; by_; bvx; bvy; py].

(** [update(old_state, action, reward, new_state)]. *)
Definition update (old_state : list Z) (action : Z) (reward : F) (new_state : list Z)
  : M t unit :=
  self ← get;
  old_q ← liftR (np_getitem (q_table self) (old_state ++ [action]));
  selected ← liftR (np_getitem (q_table self) new_state);
  future_q ← liftR (np_max (data selected));
  let increment :=
    map (λ q, f_mul (alpha self)
                    (f_sub (f_add reward (f_mul (gamma self) future_q)) q))
        (data old_q) in
  q' ← liftR (np_iadd (q_table self) (old_state ++ [action]) increment);
  modify (set_q_table q').

Definition decay_epsilon : M t unit :=
  modify (λ self, set_epsilon (py_max2 (epsilon_min self)
                                       (f_mul (epsilon self) (epsilon_decay self))) self).

End Tabular.
Arguments ndarray F : clear implicits.
Arguments t F : clear implicits.
Arguments Ball F : clear implicits.
Arguments Paddle F : clear implicits.
End QAgent.

(** ** A caller of the store *)

(** The loop of a caller that stores transitions one after the other
    ([for ...: memory.push(...)], as the tests and a training driver
    do); a push that raises ends the loop. *)
Fixpoint push_all {F} `{Scalar F} `{Numpy F}
    (trs : list (PrioritizedReplayBuffer.Transition F))
  : M (PrioritizedReplayBuffer.t F) unit :=
  match trs with
  | [] => ret tt
  | tr :: trs' => PrioritizedReplayBuffer.push tr;; push_all trs'
  end.

(** A transition as the agent's configuration expects it: states of
    [state_dim] numbers and an action of [range(action_dim)].  These
    are the transitions on which the tensors of [optimize_model] have
    the shapes its networks accept. *)
Definition stored_for {F} (cfg : DQNAgent.DQNConfig F)
    (tr : PrioritizedReplayBuffer.Transition F) : Prop :=
  Z.of_nat (length (PrioritizedReplayBuffer.state tr)) = DQNAgent.state_dim cfg
  ∧ Z.of_nat (length (PrioritizedReplayBuffer.next_state tr)) = DQNAgent.state_dim cfg
  ∧ (0 ≤ PrioritizedReplayBuffer.action tr < DQNAgent.action_dim cfg)%Z.

(** The transitions that a sequence of events pushed, in their
    order. *)
Definition pushed_of {F} (evs : list (DQNAgent.event (F:=F)))
  : list (PrioritizedReplayBuffer.Transition F) :=
  omap (λ ev, match ev with
              | DQNAgent.Push tr => Some tr
              | DQNAgent.Optimize => None
              end) evs.

(** ** The game around the tabular agent: more of [pong_ai.py] *)

(** [random.choice(seq)], on the generator of [random]. *)
Class PyChoice (F : Type) `{Torch F} : Type := {
  random_choice : PyRandom → list Z → (string + Z) * PyRandom;
}.

(** What is assumed of it: from a sequence that is not empty it returns
    one of the items. *)
Class PyChoiceSpec (F : Type) `{PyChoice F} : Prop := {
  random_choice_elem : ∀ g xs, xs ≠ [] →
    ∃ x g', random_choice g xs = (inr x, g') ∧ x ∈ xs;
}.

Module PongAI.

Definition PADDLE_WIDTH : Z := 12.
Definition PADDLE_HEIGHT : Z := 100.
Definition PADDLE_SPEED : Z := 7.
Definition SCREEN_HEIGHT : Z := Z.of_nat QAgent.SCREEN_HEIGHT.

(** *** [class Paddle]

    The coordinates of a paddle are Python integers: [__init__] gets
    them from integer divisions of the settings, and [move] is called
    with the directions -1, 0 and 1 and adds multiples of the integer
    speed. *)
Record Paddle : Type := mkPaddle {
  x : Z;
  y : Z;
  width : Z;
  height : Z;
  is_player : bool;
  speed : Z;
  vel : Z;
}.

Definition set_y (v : Z) (self : Paddle) : Paddle :=
  mkPaddle (x self) v (width self) (height self) (is_player self) (speed self) (vel self).
Definition set_vel (v : Z) (self : Paddle) : Paddle :=
  mkPaddle (x self) (y self) (width self) (height self) (is_player self) (speed self) v.

(** [Paddle(x, y, is_player)]. *)
Definition Paddle__init__ (x y : Z) (is_player : bool) : Paddle :=
  mkPaddle x y PADDLE_WIDTH PADDLE_HEIGHT is_player PADDLE_SPEED 0.

(** [move(direction)]. *)
Definition move (direction : Z) (self : Paddle) : Paddle :=
  let self := set_vel (direction * speed self) self in
  let self := set_y (y self + vel self) self in
  set_y (Z.max 0 (Z.min (SCREEN_HEIGHT - height self) (y self))) self.

Section Game.
Context {F : Type} `{PyChoice F}.

(** *** [QAgent.select_action] *)

(** [np.argmax(a)]: the index, in the flattened array, of the first
    largest entry. *)
Definition np_argmax (a : QAgent.ndarray F) : Result nat :=
  match QAgent.data a with
  | [] => Raise (ValueError "attempt to get argmax of an empty sequence")
  | x :: xs => Ok (argmax_from x 0 1 xs)
  end.

(** The three branches on the difficulty are the same call in the
    source. *)
Definition select_action (state : list Z) (self : QAgent.t F) : M PyRandom Z :=
  u ← call random_random;
  if f_ltb u (QAgent.epsilon self)
  then
    if String.eqb (QAgent.difficulty self) "easy"
    then call_raising (λ g, random_choice g QAgent.ACTIONS)
    else if String.eqb (QAgent.difficulty self) "medium"
    then call_raising (λ g, random_choice g QAgent.ACTIONS)
    else call_raising (λ g, random_choice g QAgent.ACTIONS)
  else
    selected ← liftR (QAgent.np_getitem (QAgent.q_table self) state);
    a ← liftR (np_argmax selected);
    mret (Z.of_nat a).

(** *** [class PongGame]: its attributes and [set_difficulty] *)

Record PongGame : Type := mkGame {
  left_paddle : Paddle;
  right_paddle : Paddle;
  ball : QAgent.Ball F;
  player_score : Z;
  ai_score : Z;
  agent : option (QAgent.t F);        (* [None] until a difficulty is set *)
  difficulty : string;
  menu : bool;
  running : bool;
}.

Definition set_difficulty_attr (d : string) (self : PongGame) : PongGame :=
  mkGame (left_paddle self) (right_paddle self) (ball self) (player_score self)
         (ai_score self) (agent self) d (menu self) (running self).
Definition set_agent (a : option (QAgent.t F)) (self : PongGame) : PongGame :=
  mkGame (left_paddle self) (right_paddle self) (ball self) (player_score self)
         (ai_score self) a (difficulty self) (menu self) (running self).

(** The dictionary literal of [set_difficulty]. *)
Definition difficulty_epsilon : gmap string F :=
  <["easy" := f_div (f_of_nat 8) (f_of_nat 10)]>
    (<["medium" := f_div (f_of_nat 3) (f_of_nat 10)]>
       (<["hard" := f_div (f_of_nat 5) (f_of_nat 100)]> ∅)).

(** [d[key]] on a dictionary with string keys. *)
Definition dict_getitem {A} (d : gmap string A) (key : string) : Result A :=
  match d !! key with
  | Some v => Ok v
  | None => Raise (KeyError key)
  end.

(** [set_difficulty(diff)]: the subscription on the right of the last
    assignment is evaluated when the new agent is already installed. *)
Definition set_difficulty (diff : string) : M PongGame unit :=
  modify (set_difficulty_attr diff);;
  modify (set_agent (Some (QAgent.__init__ diff)));;
  e ← liftR (dict_getitem difficulty_epsilon diff);
  modify (λ self, set_agent (option_map (QAgent.set_epsilon e) (agent self)) self).

End Game.
Arguments PongGame F : clear implicits.
End PongAI.

(** ** Two carriers *)

(** *** Exact rationals *)

Module ExactQ.

Definition Qltb (x y : Q) : bool := (Qnum x * QDen y <? Qnum y * QDen x)%Z.

#[global] Instance Q_scalar : Scalar Q := {|
  f_zero := 0%Q;
  f_one := 1%Q;
  f_add x y := Qred (x + y);
  f_sub x y := Qred (x - y);
  f_mul x y := Qred (x * y);
  f_div x y := Qred (x / y);
  f_neg x := Qred (- x);
  f_abs x := Qred (Qabs x);
  f_ltb := Qltb;
  f_of_nat n := inject_Z (Z.of_nat n);
  f_to_int x := (Qnum x ÷ QDen x)%Z;
|}.

(** A generator of [np.random] that deals the indices round robin,
    starting from its counter; it accepts the distributions that are
    exactly normalised.  [x ** y] is exact for an integral [y], the
    only exponents the examples use.  An array of one element is not
    taken for a scalar, as in numpy 2.4. *)
#[global] Instance Q_numpy : Numpy Q := {|
  RandomState := nat;
  np_power x y := Qred (Qpower x (Qnum y ÷ QDen y));
  np_random_choice g a size p :=
    if bool_decide (0 < a) && bool_decide (0 ≤ size)%Z && bool_decide (length p = a)
    then (inr (map (λ k, (g + k) `mod` a) (seq 0 (Z.to_nat size))), g + Z.to_nat size)
    else (inl "a must be greater than 0 unless no samples are taken", g);
  np_valid_p p := forallb (λ x, negb (Qltb x 0)) p && Qeq_bool (np_sum p) 1;
  np_size_one_item := false;
|}.

(** A generator of [random] driven by a counter, an optimizer without
    state of its own, and a gradient step that moves the biases of the
    output layer by one. *)
Definition descend (net : DQNetwork Q) : DQNetwork Q :=
  mkDQNetwork (network_0 net) (network_2 net)
    (mkLinear (weight (network_4 net)) (map (λ b, f_sub b 1%Q) (bias (network_4 net)))).

#[global] Instance Q_torch : Torch Q := {|
  PyRandom := nat;
  random_random g := (Qred (inject_Z (Z.of_nat (g `mod` 10)) / 10), S g);
  random_randrange g n :=
    if (0 <? n)%Z then (inr (Z.of_nat g `mod` n)%Z, S g)
    else (inl "empty range for randrange()", g);
  Optimizer := unit;
  adam _ _ := tt;
  optimizer_step o _ net := (descend net, o);
|}.

End ExactQ.

(** *** IEEE 754 numbers

    The operations of the standard library's executable specification of
    IEEE 754, at a precision and an exponent range: binary32 is the
    format of [torch.FloatTensor] and [np.float32], binary64 the format
    of Python's [float]. *)

Module IEEE.

Definition of_Z (prec emax : Z) (z : Z) : spec_float := binary_normalize prec emax z 0 false.

Definition to_int (x : spec_float) : Z :=
  match x with
  | S754_finite s m e =>
      let v := if (0 <=? e)%Z then (Z.pos m * 2 ^ e)%Z else (Z.pos m / 2 ^ (- e))%Z in
      if s then (- v)%Z else v
  | _ => 0%Z
  end.

Definition scalar (prec emax : Z) : Scalar spec_float := {|
  f_zero := S754_zero false;
  f_one := of_Z prec emax 1;
  f_add := SFadd prec emax;
  f_sub := SFsub prec emax;
  f_mul := SFmul prec emax;
  f_div := SFdiv prec emax;
  f_neg := SFopp;
  f_abs := SFabs;
  f_ltb := SFltb;
  f_of_nat n := of_Z prec emax (Z.of_nat n);
  f_to_int := to_int;
|}.

(** [n / d] rounded to the format, for the decimal constants. *)
Definition ratio (prec emax : Z) (n d : Z) : spec_float :=
  SFdiv prec emax (of_Z prec emax n) (of_Z prec emax d).

Definition binary32 : Scalar spec_float := scalar 24 128.
Definition binary64 : Scalar spec_float := scalar 53 1024.

(** The smallest positive number of binary64, 5e-324, and the decay
    rate 0.995. *)
Definition tiny64 : spec_float := S754_finite false 1 (-1074).
Definition decay64 : spec_float := ratio 53 1024 995 1000.

End IEEE.

(** ** Concrete agents and stores *)

Module Examples.
Import PrioritizedReplayBuffer DQNAgent ExactQ.
Local Open Scope Q_scope.

(** A network with one input, one hidden unit per layer and two
    actions: on a positive input [x] its outputs are [x] and [0]. *)
Definition net1 : DQNetwork Q :=
  mkDQNetwork (mkLinear [[1]] [0]) (mkLinear [[1]] [0]) (mkLinear [[1]; [0]] [0; 0]).

(** The default schedule and discount, a store of four places, batches
    of one transition, and exponents 1 for the priorities. *)
Definition config1 : DQNConfig Q :=
  mkConfig 1 2 1 (1 # 1000) (99 # 100) 4 1 1000 1 (1 # 100) (995 # 1000)
           1 1 (1 # 1000000).

(** The default batch size, 64. *)
Definition config64 : DQNConfig Q :=
  mkConfig 1 2 1 (1 # 1000) (99 # 100) 4 64 1000 1 (1 # 100) (995 # 1000)
           1 1 (1 # 1000000).

(** A transition that goes on and a terminal one with reward +1. *)
Definition going : Transition Q := mkTransition [1] 0 0 [2] false.
Definition terminal : Transition Q := mkTransition [1] 0 1 [3] true.

Definition store0 : PrioritizedReplayBuffer.t Q :=
  PrioritizedReplayBuffer.__init__ 4 1.

Definition store1 : PrioritizedReplayBuffer.t Q := after (push terminal) store0.

Definition agent0 : DQNAgent.t Q := DQNAgent.__init__ config1 net1.
Definition agent64 : DQNAgent.t Q := DQNAgent.__init__ config64 net1.

(** [agent0] after it stored the terminal transition. *)
Definition agent1 : DQNAgent.t Q := set_memory store1 agent0.

(** The generators at their start. *)
Definition seed : @RandomState Q Q_numpy := 0%nat.
Definition py_seed : @PyRandom Q Q_scalar Q_torch := 0%nat.

(** Batches of two, with two transitions stored. *)
Definition config2 : DQNConfig Q :=
  mkConfig 1 2 1 (1 # 1000) (99 # 100) 4 2 1000 1 (1 # 100) (995 # 1000)
           1 1 (1 # 1000000).
Definition agent2 : DQNAgent.t Q :=
  set_memory (after (push going) store1) (DQNAgent.__init__ config2 net1).

(** The default batch size with one transition stored. *)
Definition agent64_1 : DQNAgent.t Q := set_memory store1 agent64.

(** Five transitions with the rewards 1 to 5, pushed into a store of
    four places. *)
Definition numbered (r : Z) : Transition Q := mkTransition [1] 0 (inject_Z r) [2] false.
Definition store5 : PrioritizedReplayBuffer.t Q :=
  foldl (λ b tr, after (push tr) b) store0 (map numbered [1; 2; 3; 4; 5]%Z).

End Examples.

(** The same terminal transition and network in binary32. *)
Module Examples32.
Import PrioritizedReplayBuffer IEEE.

Definition one : spec_float := of_Z 24 128 1.
Definition zero : spec_float := S754_zero false.

Definition net1 : DQNetwork spec_float :=
  mkDQNetwork (mkLinear [[one]] [zero]) (mkLinear [[one]] [zero])
              (mkLinear [[one]; [zero]] [zero; zero]).

Definition terminal : Transition spec_float :=
  mkTransition [one] 0 one [of_Z 24 128 3] true.

Definition gamma : spec_float := ratio 24 128 99 100.

End Examples32.

(** ** More concrete agents, stores and games *)

Module Examples2.
Import PrioritizedReplayBuffer DQNAgent ExactQ Examples.
Local Open Scope Q_scope.

(** [random.choice] on the counter generator: the item at the counter
    modulo the length. *)
#[global] Instance Q_choice : PyChoice Q := {|
  random_choice g xs :=
    match xs with
    | [] => (inl "Cannot choose from an empty sequence", g)
    | x :: _ => (inr (nth (g `mod` length xs) xs x), S g)
    end;
|}.

(** A store without a place. *)
Definition store_none : PrioritizedReplayBuffer.t Q :=
  PrioritizedReplayBuffer.__init__ 0 1.

(** Three assignments of priorities, two of them to slot 0. *)
Definition writes : list (nat * Q) := [(0%nat, 3); (1%nat, 2); (0%nat, 5)].

(** A batch size of zero. *)
Definition config0 : DQNConfig Q :=
  mkConfig 1 2 1 (1 # 1000) (99 # 100) 4 0 1000 1 (1 # 100) (995 # 1000)
           1 1 (1 # 1000000).
Definition agent_batch0 : DQNAgent.t Q := DQNAgent.__init__ config0 net1.

(** The tabular agent of a game at medium difficulty, the ball and the
    right paddle where [PongGame] puts them at the start, the ball
    flying to the right. *)
Definition tabular : QAgent.t Q :=
  QAgent.set_epsilon (3 # 10) (QAgent.__init__ "medium").
Definition ball0 : QAgent.Ball Q := QAgent.mkBall 391 241 5 0.
Definition right_paddle0 : PongAI.Paddle := PongAI.Paddle__init__ 758 200 false.
Definition observed_paddle0 : QAgent.Paddle Q := QAgent.mkPaddle 200.

(** A generator of [random] whose next number is 0.5. *)
Definition py_seed5 : @PyRandom Q Q_scalar Q_torch := 5%nat.

End Examples2.

(** * Properties *)

(** ** Python's [max] *)

Section MaxFacts.
Context {F : Type} `{ScalarOrder F}.

Lemma f_ltb_asym (x y : F) : f_ltb x y = true → f_ltb y x = false.
Proof.
  intros Hxy. destruct (f_ltb y x) eqn:Hyx; [|reflexivity].
  pose proof (f_ltb_trans _ _ _ Hxy Hyx) as Hxx.
  rewrite f_ltb_irrefl in Hxx. discriminate.
Qed.

Lemma py_max_from_cons (x y : F) (xs : list F) :
  py_max_from x (y :: xs) = py_max_from (if f_gtb y x then y else x) xs.
Proof. reflexivity. Qed.

Lemma py_max_from_app (x : F) (xs ys : list F) :
  py_max_from x (xs ++ ys) = py_max_from (py_max_from x xs) ys.
Proof. unfold py_max_from. apply fold_left_app. Qed.

(** The result is an item of the sequence. *)
Lemma py_max_from_elem (x : F) (xs : list F) : py_max_from x xs ∈ x :: xs.
Proof.
  revert x. induction xs as [|y ys IH]; intros x.
  - apply elem_of_cons. by left.
  - rewrite py_max_from_cons. specialize (IH (if f_gtb y x then y else x)).
    apply elem_of_cons in IH as [Heq|Hin].
    + rewrite Heq. destruct (f_gtb y x).
      * apply elem_of_cons. right. apply elem_of_cons. by left.
      * apply elem_of_cons. by left.
    + apply elem_of_cons. right. apply elem_of_cons. by right.
Qed.

(** The running maximum is the first item, or something above it. *)
Lemma py_max_from_cases (x : F) (xs : list F) :
  py_max_from x xs = x ∨ f_ltb x (py_max_from x xs) = true.
Proof.
  revert x. induction xs as [|y ys IH]; intros x; [by left|].
  rewrite py_max_from_cons. destruct (f_gtb y x) eqn:Hgt.
  - right. destruct (IH y) as [->|Hlt]; [exact Hgt|].
    exact (f_ltb_trans _ _ _ Hgt Hlt).
  - apply IH.
Qed.

(** Nothing in the sequence is above the result. *)
Lemma py_max_from_upper (x : F) (xs : list F) (y : F) :
  y ∈ x :: xs → f_ltb (py_max_from x xs) y = false.
Proof.
  revert x. induction xs as [|z zs IH]; intros x Hin.
  - apply elem_of_cons in Hin as [->|Hin]; [apply f_ltb_irrefl|].
    by apply elem_of_nil in Hin.
  - rewrite py_max_from_cons.
    apply elem_of_cons in Hin as [->|Hin].
    + destruct (f_gtb z x) eqn:Hgt.
      * destruct (py_max_from_cases z zs) as [->|Hlt].
        -- by apply f_ltb_asym.
        -- apply f_ltb_asym. exact (f_ltb_trans _ _ _ Hgt Hlt).
      * destruct (py_max_from_cases x zs) as [->|Hlt];
          [apply f_ltb_irrefl | by apply f_ltb_asym].
    + apply elem_of_cons in Hin as [->|Hin].
      * destruct (f_gtb z x) eqn:Hgt.
        -- destruct (py_max_from_cases z zs) as [->|Hlt];
             [apply f_ltb_irrefl | by apply f_ltb_asym].
        -- destruct (py_max_from_cases x zs) as [->|Hlt]; [exact Hgt|].
           destruct (f_ltb (py_max_from x zs) z) eqn:Hbad; [|reflexivity].
           unfold f_gtb in Hgt.
           rewrite (f_ltb_trans _ _ _ Hlt Hbad) in Hgt. discriminate.
      * apply IH. apply elem_of_cons. by right.
Qed.

(** Zeros after items that are not negative do not move the maximum:
    the maximum over the whole priority array is the maximum over the
    slots in use. *)
Lemma py_max_from_zeros (x : F) (xs : list F) (n : nat) :
  Forall (λ p, f_ltb p f_zero = false) (x :: xs) →
  py_max_from x (xs ++ replicate n f_zero) = py_max_from x xs.
Proof.
  intros Hpos. rewrite py_max_from_app.
  assert (f_ltb (py_max_from x xs) f_zero = false) as Hm.
  { rewrite Forall_forall in Hpos. apply Hpos, py_max_from_elem. }
  induction n as [|n IH]; [reflexivity|].
  change (replicate (S n) f_zero) with (f_zero :: replicate n f_zero).
  rewrite py_max_from_cons. unfold f_gtb. rewrite Hm. exact IH.
Qed.

End MaxFacts.

(** ** Helpers for running methods *)

Ltac run_method :=
  unfold mbind, mret, M_bind, M_ret, Result_bind, Result_ret, bind, ret, get,
    modify, liftR, call, call_raising, on_member in *.

Lemma np_index_of_nat (n i : nat) : i < n → np_index n (Z.of_nat i) = Ok i.
Proof.
  intros Hi. unfold np_index.
  replace ((0 <=? Z.of_nat i)%Z && (Z.of_nat i <? Z.of_nat n)%Z) with true.
  - by rewrite Nat2Z.id.
  - symmetry. apply andb_true_intro. split; [apply Z.leb_le|apply Z.ltb_lt]; lia.
Qed.

Lemma mod_slots_differ (c k n : nat) :
  0 < c → k < n → n < k + c → k `mod` c ≠ n `mod` c.
Proof.
  intros Hc Hkn Hnc Heq.
  pose proof (Nat.div_mod_eq k c) as Hk.
  pose proof (Nat.div_mod_eq n c) as Hn.
  rewrite Heq in Hk.
  assert (k `div` c < n `div` c ∨ n `div` c ≤ k `div` c) as [Hlt|Hge] by lia; nia.
Qed.

Lemma Forall_eq_replicate {A} (x : A) (l : list A) :
  Forall (λ y, y = x) l → l = replicate (length l) x.
Proof. induction 1 as [|y l -> _ IH]; simpl; [reflexivity|]. by rewrite <- IH. Qed.

Lemma mapR_getitem {A} (l : list A) (indices : list nat) :
  Forall (λ i, i < length l) indices →
  ∃ ys, mapR (getitem l) indices = Ok ys ∧ length ys = length indices
        ∧ ∀ k i, indices !! k = Some i → ys !! k = l !! i.
Proof.
  induction 1 as [|i indices Hi _ (ys & Hys & Hlen & Hnth)].
  - exists []. repeat split. intros k i Hk. by rewrite lookup_nil in Hk.
  - destruct (lookup_lt_is_Some_2 l i Hi) as [x Hx].
    exists (x :: ys). simpl. unfold getitem at 1. rewrite Hx, Hys.
    split; [reflexivity|]. split; [simpl; by rewrite Hlen|].
    intros [|k] j Hk; simpl in *.
    + inversion Hk; subst. by rewrite Hx.
    + by apply Hnth.
Qed.

(** ** The experience store *)

Module BufferFacts.
Import PrioritizedReplayBuffer.
Section Facts.
Context {F : Type} `{ScalarOrder F} `{Numpy F}.

Lemma ring_position_lt (b : t F) pushed :
  0 < capacity b → ring_of b pushed → position b < capacity b.
Proof.
  intros Hc [Hp _ _]. rewrite Hp. apply Nat.mod_upper_bound. lia.
Qed.

Lemma ring_not_full (b : t F) pushed :
  ring_of b pushed → length (buffer b) < capacity b →
  length pushed < capacity b ∧ position b = length (buffer b).
Proof.
  intros [Hp Hl _] Hlt.
  assert (length pushed < capacity b) as Hn by lia.
  split; [exact Hn|]. rewrite Hp, Hl. rewrite Nat.mod_small by lia. lia.
Qed.

Lemma ring_full (b : t F) pushed :
  ring_of b pushed → ¬ length (buffer b) < capacity b →
  capacity b ≤ length pushed ∧ length (buffer b) = capacity b.
Proof. intros [Hp Hl _] Hge. lia. Qed.

(** The priority a push assigns, for a store that holds something:
    Python's [max] over the whole array is its [max] over the slots in
    use. *)
Lemma max_priority_held (b : t F) :
  wf b → length (buffer b) ≤ capacity b → buffer b ≠ [] →
  max_priority b = py_max (held b) ∧ ∃ m, py_max (held b) = Ok m.
Proof.
  intros [Hc Hlen Hheld Hfree] Hle Hne.
  unfold max_priority. destruct (buffer b) as [|tr0 trs] eqn:Hb; [done|].
  rewrite <- Hb in *. clear Hne.
  assert (priorities b = held b ++ replicate (capacity b - length (buffer b)) f_zero) as Hsplit.
  { rewrite <- (take_drop (length (buffer b)) (priorities b)) at 1.
    unfold held. f_equal.
    rewrite (Forall_eq_replicate _ _ Hfree) at 1.
    by rewrite length_drop, Hlen. }
  assert (length (held b) = length (buffer b)) as Hhl.
  { unfold held. rewrite length_take. lia. }
  destruct (held b) as [|h hs] eqn:Hh.
  { rewrite Hb in Hhl. discriminate. }
  rewrite Hsplit. simpl. split; [|eauto].
  f_equal. by apply py_max_from_zeros.
Qed.

(** What [push] does to a store that satisfies its invariant. *)
Lemma push_run (b : t F) pushed tr m :
  wf b → ring_of b pushed → max_priority b = Ok m →
  push tr b =
    (Ok tt,
     mkBuffer (capacity b) (alpha b) (<[position b := m]> (priorities b))
              (if length (buffer b) <? capacity b then buffer b ++ [tr]
               else <[position b := tr]> (buffer b))
              ((position b + 1) `mod` capacity b)).
Proof.
  intros Hwf Hring Hm.
  pose proof (ring_position_lt b pushed (wf_capacity _ Hwf) Hring) as Hpos.
  destruct Hwf as [Hc Hlen Hheld Hfree].
  assert (Z.to_nat ((Z.of_nat (position b) + 1) `mod` Z.of_nat (capacity b))
          = (position b + 1) `mod` capacity b) as Hnext.
  { rewrite <- (Nat2Z.id ((position b + 1) `mod` capacity b)). f_equal.
    rewrite Nat2Z.inj_mod. f_equal. lia. }
  assert ((Z.of_nat (capacity b) =? 0)%Z = false) as Hcz by (apply Z.eqb_neq; lia).
  unfold push. run_method. rewrite Hm.
  destruct (length (buffer b) <? capacity b) eqn:Hfull; simpl.
  - unfold np_setitem. rewrite np_index_of_nat by (simpl; lia). simpl.
    unfold py_mod. rewrite Hcz. unfold set_position; simpl. by rewrite Hnext.
  - apply Nat.ltb_ge in Hfull.
    destruct (ring_full b pushed Hring ltac:(lia)) as [_ Hl].
    unfold list_setitem. replace (position b <? length (buffer b)) with true
      by (symmetry; apply Nat.ltb_lt; lia).
    simpl. unfold np_setitem. rewrite np_index_of_nat by (simpl; lia). simpl.
    unfold py_mod. rewrite Hcz. unfold set_position; simpl. by rewrite Hnext.
Qed.

Lemma wf_init (capacity : nat) (alpha : F) :
  0 < capacity → wf (__init__ capacity alpha).
Proof.
  intros Hc. split; simpl.
  - exact Hc.
  - apply length_replicate.
  - unfold held; simpl. by rewrite take_0.
  - rewrite drop_0. apply Forall_replicate. reflexivity.
Qed.

Lemma ring_init (capacity : nat) (alpha : F) :
  0 < capacity → ring_of (__init__ capacity alpha) [].
Proof.
  intros Hc. split; simpl.
  - by rewrite Nat.Div0.mod_0_l.
  - reflexivity.
  - intros k Hk. lia.
Qed.

Lemma max_priority_ok (b : t F) pushed :
  wf b → ring_of b pushed →
  ∃ m, max_priority b = Ok m ∧ f_ltb m f_zero = false.
Proof.
  intros Hwf Hring.
  destruct (buffer b) as [|tr0 trs] eqn:Hb.
  - exists f_one. unfold max_priority. rewrite Hb. split; [reflexivity|].
    apply f_one_nonneg.
  - assert (length (buffer b) ≤ capacity b) as Hle
      by (rewrite (ring_length _ _ Hring); lia).
    destruct (max_priority_held b Hwf Hle) as [Heq [m Hm]]; [by rewrite Hb|].
    exists m. split; [by rewrite Heq|].
    pose proof (wf_held _ Hwf) as Hheld. rewrite Forall_forall in Hheld.
    apply Hheld. destruct (held b) as [|h hs]; [discriminate|].
    inversion Hm. apply py_max_from_elem.
Qed.

Lemma wf_push (b : t F) pushed tr :
  wf b → ring_of b pushed → wf (after (push tr) b).
Proof.
  intros Hwf Hring.
  destruct (max_priority_ok b pushed Hwf Hring) as [m [Hm Hm0]].
  unfold after. rewrite (push_run b pushed tr m Hwf Hring Hm).
  pose proof (ring_position_lt b pushed (wf_capacity _ Hwf) Hring) as Hpos.
  destruct Hwf as [Hc Hlen Hheld Hfree].
  rewrite Forall_lookup in Hheld. rewrite Forall_lookup in Hfree.
  split; simpl.
  - exact Hc.
  - by rewrite length_insert.
  - unfold held; simpl. apply Forall_lookup. intros i x Hi.
    apply lookup_take_Some in Hi as [Hi Hlt].
    destruct (decide (i = position b)) as [->|Hne].
    + rewrite list_lookup_insert_eq in Hi by lia. by inversion Hi; subst.
    + rewrite list_lookup_insert_ne in Hi by done.
      apply (Hheld i). unfold held. rewrite lookup_take_lt; [exact Hi|].
      destruct (length (buffer b) <? capacity b) eqn:Hfull.
      * apply Nat.ltb_lt in Hfull.
        destruct (ring_not_full b pushed Hring Hfull) as [_ Hp].
        rewrite length_app in Hlt; simpl in Hlt. lia.
      * by rewrite length_insert in Hlt.
  - apply Forall_lookup. intros i x Hi. rewrite lookup_drop in Hi.
    assert (length (buffer b) ≤
            length (if length (buffer b) <? capacity b then buffer b ++ [tr]
                    else <[position b:=tr]> (buffer b))) as Hgrow.
    { destruct (length (buffer b) <? capacity b);
        [rewrite length_app|rewrite length_insert]; lia. }
    destruct (decide (position b =
                      length (if length (buffer b) <? capacity b then buffer b ++ [tr]
                              else <[position b:=tr]> (buffer b)) + i)) as [Heq|Hne].
    + exfalso. destruct (length (buffer b) <? capacity b) eqn:Hfull.
      * apply Nat.ltb_lt in Hfull.
        destruct (ring_not_full b pushed Hring Hfull) as [_ Hp].
        rewrite length_app in Heq; simpl in Heq. lia.
      * apply Nat.ltb_ge in Hfull.
        destruct (ring_full b pushed Hring ltac:(lia)) as [_ Hl].
        rewrite length_insert in Heq. lia.
    + rewrite list_lookup_insert_ne in Hi by done.
      match type of Hi with
      | priorities b !! (?n + i) = _ =>
          apply (Hfree (n + i - length (buffer b)));
          rewrite lookup_drop;
          replace (length (buffer b) + (n + i - length (buffer b))) with (n + i) by lia
      end.
      exact Hi.
Qed.

Lemma ring_push (b : t F) pushed tr :
  wf b → ring_of b pushed → ring_of (after (push tr) b) (pushed ++ [tr]).
Proof.
  intros Hwf Hring.
  destruct (max_priority_ok b pushed Hwf Hring) as [m [Hm _]].
  unfold after. rewrite (push_run b pushed tr m Hwf Hring Hm).
  pose proof (wf_capacity _ Hwf) as Hc.
  pose proof (ring_position_lt b pushed Hc Hring) as Hpos.
  pose proof Hring as [Hp Hl Hs].
  split; simpl; rewrite length_app; simpl.
  - rewrite Hp. rewrite Nat.Div0.add_mod_idemp_l. reflexivity.
  - destruct (length (buffer b) <? capacity b) eqn:Hfull.
    + apply Nat.ltb_lt in Hfull. rewrite length_app; simpl. lia.
    + apply Nat.ltb_ge in Hfull. rewrite length_insert. lia.
  - intros k Hk Hwin.
    destruct (decide (k = length pushed)) as [->|Hne].
    + rewrite lookup_app_r by lia. rewrite Nat.sub_diag. simpl.
      rewrite <- Hp.
      destruct (length (buffer b) <? capacity b) eqn:Hfull.
      * apply Nat.ltb_lt in Hfull.
        destruct (ring_not_full b pushed Hring Hfull) as [_ Hpl].
        rewrite Hpl. rewrite lookup_app_r by lia. by rewrite Nat.sub_diag.
      * apply Nat.ltb_ge in Hfull.
        destruct (ring_full b pushed Hring ltac:(lia)) as [_ Hfl].
        apply list_lookup_insert_eq. lia.
    + rewrite lookup_app_l by lia.
      assert (k `mod` capacity b ≠ position b) as Hslot.
      { rewrite Hp. apply mod_slots_differ; lia. }
      rewrite <- (Hs k) by lia.
      destruct (length (buffer b) <? capacity b) eqn:Hfull.
      * apply Nat.ltb_lt in Hfull.
        destruct (ring_not_full b pushed Hring Hfull) as [Hn Hpl].
        rewrite lookup_app_l; [reflexivity|].
        rewrite Nat.mod_small by lia. lia.
      * by rewrite list_lookup_insert_ne.
Qed.

(** [update_priorities] touches the priority array only. *)
Lemma update_priorities_frame indices new_priorities (b : t F) :
  let b' := after (update_priorities indices new_priorities) b in
  buffer b' = buffer b ∧ position b' = position b ∧ capacity b' = capacity b
  ∧ alpha b' = alpha b ∧ length (priorities b') = length (priorities b).
Proof.
  revert new_priorities b.
  induction indices as [|idx indices IH]; intros [|v vs] b; simpl; try done.
  unfold after in *. simpl. run_method.
  destruct (np_setitem (priorities b) idx v) as [p'|e] eqn:Hset; simpl; [|done].
  specialize (IH vs (set_priorities p' b)). simpl in IH.
  destruct IH as (-> & -> & -> & -> & ->). simpl.
  repeat split. unfold np_setitem in Hset.
  destruct (np_index _ idx); [|discriminate].
  destruct (np_item v); [|discriminate].
  inversion Hset. by rewrite length_insert.
Qed.

Lemma ring_update_priorities indices new_priorities (b : t F) pushed :
  ring_of b pushed → ring_of (after (update_priorities indices new_priorities) b) pushed.
Proof.
  intros [Hp Hl Hs].
  destruct (update_priorities_frame indices new_priorities b) as (Hb & Hpos & Hc & _).
  split; rewrite ?Hb, ?Hpos, ?Hc; done.
Qed.

(** X5.  Scalar priorities that are not negative, written to slots in
    use, keep the invariant of the store; such an update does not
    raise. *)
Lemma wf_update_priorities indices new_priorities (b : t F) :
  wf b → length (buffer b) ≤ capacity b →
  Forall (λ idx, (0 ≤ idx < Z.of_nat (length (buffer b)))%Z) indices →
  Forall (λ v, ∃ x, v = np_scalar x ∧ f_ltb x f_zero = false) new_priorities →
  (update_priorities indices new_priorities b).1 = Ok tt
  ∧ wf (after (update_priorities indices new_priorities) b).
Proof.
  revert new_priorities b.
  induction indices as [|idx indices IH]; intros [|v vs] b Hwf Hle Hidx Hv;
    try (split; [reflexivity|exact Hwf]).
  inversion Hidx as [|? ? Hi Hidx']; subst.
  inversion Hv as [|? ? (x & Hx & Hx0) Hv']; subst.
  unfold after in *. simpl. run_method.
  pose proof Hwf as [Hc Hlen Hheld Hfree].
  unfold np_setitem.
  assert (np_index (length (priorities b)) idx = Ok (Z.to_nat idx)) as ->.
  { rewrite <- (np_index_of_nat (length (priorities b)) (Z.to_nat idx)) by lia.
    f_equal. lia. }
  cbn [np_item].
  apply (IH vs (set_priorities (<[Z.to_nat idx:=x]> (priorities b)) b)); simpl;
    [|exact Hle|exact Hidx'|exact Hv'].
  rewrite Forall_lookup in Hheld. rewrite Forall_lookup in Hfree.
  split; simpl.
  - exact Hc.
  - by rewrite length_insert.
  - unfold held; simpl. apply Forall_lookup. intros i y Hy.
    apply lookup_take_Some in Hy as [Hy Hlt].
    destruct (decide (i = Z.to_nat idx)) as [->|Hne].
    + rewrite list_lookup_insert_eq in Hy by lia. by inversion Hy; subst.
    + rewrite list_lookup_insert_ne in Hy by done.
      apply (Hheld i). unfold held. by rewrite lookup_take_lt.
  - apply Forall_lookup. intros i y Hy. rewrite lookup_drop in Hy.
    rewrite list_lookup_insert_ne in Hy by lia.
    apply (Hfree i). by rewrite lookup_drop.
Qed.

(** C5. A push into a store that satisfies its invariant and is the
    ring image of the transitions [pushed] so far returns nothing and
    does not raise.  The transition goes to the slot of the write
    cursor and no other slot changes, of the buffer or of the priority
    array.  Its priority is 1.0 when the store was empty, and
    otherwise Python's maximum of the priorities held: one of them,
    with none of them above it.  While the ring is not full the slot
    is the first free one and the store grows by one; once it is full
    the slot is the one of the oldest transition held, the one pushed
    [capacity] pushes ago, and the length stays at the capacity.  The
    cursor advances by one modulo the capacity, and invariant and ring
    image hold again. *)
Theorem push_spec (b : t F) (pushed : list (Transition F)) (tr : Transition F) :
  wf b → ring_of b pushed →
  ∃ b', push tr b = (Ok tt, b')
    ∧ wf b' ∧ ring_of b' (pushed ++ [tr])
    ∧ buffer b' !! position b = Some tr
    ∧ (∀ i, i ≠ position b → buffer b' !! i = buffer b !! i)
    ∧ (∀ i, i ≠ position b → priorities b' !! i = priorities b !! i)
    ∧ (buffer b = [] → priorities b' !! position b = Some f_one)
    ∧ (buffer b ≠ [] →
       ∃ m, priorities b' !! position b = Some m ∧ py_max (held b) = Ok m
            ∧ m ∈ held b ∧ ∀ p, p ∈ held b → f_ltb m p = false)
    ∧ (length pushed < capacity b →
       position b = length (buffer b) ∧ length (buffer b') = S (length (buffer b)))
    ∧ (capacity b ≤ length pushed →
       buffer b !! position b = pushed !! (length pushed - capacity b)
       ∧ length (buffer b') = capacity b)
    ∧ capacity b' = capacity b
    ∧ position b' = (position b + 1) `mod` capacity b.
Proof.
  intros Hwf Hring.
  destruct (max_priority_ok b pushed Hwf Hring) as [m [Hm Hm0]].
  pose proof (push_run b pushed tr m Hwf Hring Hm) as Hrun.
  pose proof (wf_push b pushed tr Hwf Hring) as Hwf'.
  pose proof (ring_push b pushed tr Hwf Hring) as Hring'.
  unfold after in Hwf', Hring'. rewrite Hrun in Hwf', Hring'. simpl in Hwf', Hring'.
  pose proof (wf_capacity _ Hwf) as Hc.
  pose proof (ring_position_lt b pushed Hc Hring) as Hpos.
  pose proof Hring as [Hp Hl Hs].
  eexists. split; [exact Hrun|]. simpl.
  split; [exact Hwf'|]. split; [exact Hring'|].
  assert (length (buffer b) ≤ capacity b) as Hle by lia.
  repeat split.
  - destruct (length (buffer b) <? capacity b) eqn:Hfull.
    + apply Nat.ltb_lt in Hfull.
      destruct (ring_not_full b pushed Hring Hfull) as [_ ->].
      rewrite lookup_app_r by lia. by rewrite Nat.sub_diag.
    + apply Nat.ltb_ge in Hfull. apply list_lookup_insert_eq. lia.
  - intros i Hi. destruct (length (buffer b) <? capacity b) eqn:Hfull.
    + apply Nat.ltb_lt in Hfull.
      destruct (ring_not_full b pushed Hring Hfull) as [_ Hpl].
      destruct (decide (i < length (buffer b))) as [Hlt|Hge].
      * by rewrite lookup_app_l.
      * rewrite !lookup_ge_None_2; [done|lia|rewrite length_app; simpl; lia].
    + by rewrite list_lookup_insert_ne.
  - intros i Hi. by rewrite list_lookup_insert_ne.
  - intros Hb. unfold max_priority in Hm. rewrite Hb in Hm. inversion Hm.
    apply list_lookup_insert_eq. rewrite (wf_priorities _ Hwf). lia.
  - intros Hb.
    destruct (max_priority_held b Hwf Hle Hb) as [Heq [m' Hm']].
    rewrite Heq, Hm' in Hm. inversion Hm; subst m'.
    exists m. split; [apply list_lookup_insert_eq; rewrite (wf_priorities _ Hwf); lia|].
    split; [exact Hm'|].
    destruct (held b) as [|h hs]; [discriminate|]. inversion Hm'.
    split; [apply py_max_from_elem|]. intros p Hp'. by apply py_max_from_upper.
  - destruct (ring_not_full b pushed Hring) as [_ Hpl]; [lia|exact Hpl].
  - replace (length (buffer b) <? capacity b) with true
      by (symmetry; apply Nat.ltb_lt; lia).
    rewrite length_app. simpl. lia.
  - rewrite <- (Hs (length pushed - capacity b)) by lia.
    f_equal. rewrite Hp.
    replace (length pushed) with ((length pushed - capacity b) + 1 * capacity b) at 1 by lia.
    by rewrite Nat.Div0.mod_add.
  - replace (length (buffer b) <? capacity b) with false
      by (symmetry; apply Nat.ltb_ge; lia).
    rewrite length_insert. lia.
Qed.

Lemma length_probabilities (b : t F) :
  length (buffer b) ≤ length (priorities b) →
  length (probabilities b) = length (buffer b).
Proof.
  intros Hle. unfold probabilities. rewrite !length_map, length_take. lia.
Qed.

(** [sample] on a store that holds nothing raises, before it draws
    anything. *)
Lemma sample_empty (b : t F) (batch_size : Z) (beta : F) (g : RandomState) :
  buffer b = [] → sample batch_size beta b g = (Raise EmptyBufferError, g).
Proof. intros Hb. unfold sample. by rewrite Hb. Qed.

Context `{!NumpySpec F}.

(** C10. On a store that holds N >= 1 transitions (with a priority
    slot for each) and whose sampling distribution [np.random.choice]
    accepts, [sample(batch_size, beta)] with [batch_size >= 1] does not
    raise, however [batch_size] compares with N: it returns
    [batch_size] transitions, [batch_size] indices, each below N, and
    [batch_size] weights, and the k-th transition returned is the one
    held at the k-th index. *)
Theorem sample_spec (b : t F) (batch_size : Z) (beta : F) (g : RandomState) :
  buffer b ≠ [] → length (buffer b) ≤ length (priorities b) →
  (1 ≤ batch_size)%Z → np_valid_p (probabilities b) = true →
  ∃ batch indices weights g',
    sample batch_size beta b g = (Ok (batch, indices, weights), g')
    ∧ Z.of_nat (length batch) = batch_size
    ∧ Z.of_nat (length indices) = batch_size
    ∧ Z.of_nat (length weights) = batch_size
    ∧ Forall (λ i, i < length (buffer b)) indices
    ∧ ∀ k i, indices !! k = Some i → batch !! k = buffer b !! i.
Proof.
  intros Hne Hle Hsize Hvalid.
  assert (0 < length (buffer b)) as Hn by (destruct (buffer b); [done|simpl; lia]).
  pose proof (length_probabilities b Hle) as Hpl.
  destruct (np_random_choice_total g (length (buffer b)) batch_size (probabilities b))
    as (indices & g' & Hchoice); [lia|lia|exact Hpl|exact Hvalid|].
  destruct (np_random_choice_sound _ _ _ _ _ _ Hchoice) as [Hlen Hrange].
  destruct (mapR_getitem (probabilities b) indices) as (drawn & Hdrawn & Hdl & _).
  { by rewrite Hpl. }
  destruct (mapR_getitem (buffer b) indices Hrange) as (batch & Hbatch & Hbl & Hnth).
  unfold sample. replace (length (buffer b) =? 0) with false
    by (symmetry; apply Nat.eqb_neq; lia).
  run_method. rewrite Hchoice. simpl. rewrite Hdrawn. simpl.
  destruct drawn as [|p drawn]; [simpl in Hdl; lia|].
  simpl. rewrite Hbatch.
  eexists _, _, _, _. split; [reflexivity|].
  repeat split; try done.
  - lia.
  - simpl. rewrite !length_map. simpl in Hdl. lia.
Qed.

End Facts.
End BufferFacts.

Lemma mapR_raise {A B} (P : exn → Prop) (f : A → Result B) (l : list A) (e : exn) :
  (∀ x e, f x = Raise e → P e) → mapR f l = Raise e → P e.
Proof.
  intros Hf. induction l as [|x l IH]; simpl; [discriminate|].
  destruct (f x) as [y|e'] eqn:Hfx.
  - destruct (mapR f l) as [ys|e'']; [discriminate|].
    intros Heq. inversion Heq; subst. by apply IH.
  - intros Heq. inversion Heq; subst. by eapply Hf.
Qed.

Lemma getitem_raise {A} (l : list A) (i : nat) (e : exn) :
  getitem l i = Raise e → e = IndexError "index out of range".
Proof. unfold getitem. destruct (l !! i); [discriminate|]. by inversion 1. Qed.

(** ** The learning agent *)

Module AgentFacts.
Import PrioritizedReplayBuffer DQNAgent.
Section Facts.
Context {F : Type} `{Torch F} `{Numpy F}.

Lemma sample_raise (b : PrioritizedReplayBuffer.t F) batch_size beta g e g' :
  sample batch_size beta b g = (Raise e, g') → buffer b ≠ [] → e ≠ EmptyBufferError.
Proof.
  intros Hs Hne. unfold sample in Hs.
  destruct (buffer b) as [|tr trs] eqn:Hb; [done|]. simpl in Hs.
  run_method.
  destruct (np_random_choice g _ batch_size _) as [[msg|indices] g1]; simpl in Hs.
  { inversion Hs. done. }
  destruct (mapR (getitem (probabilities b)) indices) as [drawn|e1] eqn:Hd; simpl in Hs.
  2:{ inversion Hs; subst.
      apply (mapR_raise (λ e, e ≠ EmptyBufferError) _ _ _) in Hd; [done|].
      intros x e0 He0. apply getitem_raise in He0. by subst. }
  destruct drawn as [|p drawn]; simpl in Hs.
  { inversion Hs. done. }
  destruct (mapR (getitem (tr :: trs)) indices) as [batch|e1] eqn:Hbt; simpl in Hs;
    [discriminate|].
  inversion Hs; subst.
  apply (mapR_raise (λ e, e ≠ EmptyBufferError) _ _ _) in Hbt; [done|].
  intros x e0 He0. apply getitem_raise in He0. by subst.
Qed.

Lemma torch_argmax_raise xs e :
  torch_argmax (F:=F) xs = Raise e → e ≠ EmptyBufferError.
Proof. destruct xs; simpl; [|discriminate]. by inversion 1. Qed.

Lemma torch_gather_raise row index e :
  torch_gather (F:=F) row index = Raise e → e ≠ EmptyBufferError.
Proof.
  unfold torch_gather. destruct (_ && _).
  - intros He%getitem_raise. by subst.
  - by inversion 1.
Qed.

Lemma zipR_gather_raise rows indices e :
  zipR (torch_gather (F:=F)) rows indices = Raise e → e ≠ EmptyBufferError.
Proof.
  unfold zipR. apply (mapR_raise (λ e, e ≠ EmptyBufferError)).
  intros [row index] e0. apply torch_gather_raise.
Qed.

Lemma double_q_targets_raise policy target gamma (batch : list (Transition F)) e :
  double_q_targets policy target gamma batch = Raise e → e ≠ EmptyBufferError.
Proof.
  unfold double_q_targets. run_method.
  destruct (mapR _ (map next_state batch)) as [next_actions|e1] eqn:Ha.
  - destruct (zipR _ _ _) as [values|e2] eqn:Hv; [discriminate|].
    inversion 1; subst. by eapply zipR_gather_raise.
  - inversion 1; subst.
    apply (mapR_raise (λ e, e ≠ EmptyBufferError) _ _ _) in Ha; [done|].
    intros x e0. apply torch_argmax_raise.
Qed.

(** Copying a state dictionary into a network of the same shapes gives
    that network, as in [__init__], where the target network takes
    the parameters of the online one. *)
Lemma load_state_dict_same_shape (state_dict self : DQNetwork F) :
  shape_of self = shape_of state_dict →
  load_state_dict state_dict self = (Ok tt, state_dict).
Proof.
  unfold shape_of, linear_shape. intros Hs. inversion Hs as [[H0w H0b H2w H2b H4w H4b]].
  unfold load_state_dict, load_linear.
  rewrite !bool_decide_eq_true_2 by done. simpl.
  by destruct state_dict as [[] [] []].
Qed.

(** *** The names the agent's module binds *)

(** [F] is not a name of the module. *)
Lemma load_global_F : load_global "F" = Raise (NameError "name 'F' is not defined").
Proof. reflexivity. Qed.

(** The names it does read are: the library [torch] for one. *)
Lemma load_global_torch : load_global "torch" = Ok tt.
Proof. reflexivity. Qed.

(** Once the module has run, [DQNAgent] stands for the class of the
    second class statement. *)
Lemma DQNAgent_class :
  module_classes !! "DQNAgent" = Some ["__init__"; "optimize_model"].
Proof. by vm_compute. Qed.

(** The methods of that class are found; a method that only the first
    class statement defines is not. *)
Lemma getattr_DQNAgent (name : string) :
  getattr "DQNAgent" name
  = if existsb (String.eqb name) ["__init__"; "optimize_model"] then Ok tt
    else Raise (AttributeError ("'DQNAgent' object has no attribute '" +:+ name +:+ "'")).
Proof. unfold getattr. by rewrite DQNAgent_class. Qed.

(** A call of a method that the class does not have raises before the
    body runs, and leaves everything as it was. *)
Lemma method_missing {S A : Type} (name : string) (body : M S A) (s : S) :
  existsb (String.eqb name) ["__init__"; "optimize_model"] = false →
  method name body s
  = (Raise (AttributeError ("'DQNAgent' object has no attribute '" +:+ name +:+ "'")), s).
Proof.
  intros Hmissing. unfold method. run_method. by rewrite getattr_DQNAgent, Hmissing.
Qed.

(** *** [optimize_model] *)

(** Every way a call of [optimize_model] can end.  With fewer than
    [batch_size] transitions in the store it returns 0.0.  Otherwise
    it raises: the exception of [sample] or of the tensor operations
    on the batch or, when these went through, the [NameError] of line
    265.  The agent is as it was in every case; the generator of
    [np.random] has moved if [sample] moved it. *)
Lemma optimize_model_outcome (a : t F) (g : RandomState) :
  ((Z.of_nat (length (buffer (memory a))) < batch_size (config a))%Z
   ∧ optimize_model (a, g) = (Ok f_zero, (a, g)))
  ∨ ((batch_size (config a) ≤ Z.of_nat (length (buffer (memory a))))%Z
     ∧ ∃ e g', optimize_model (a, g) = (Raise e, (a, g'))
               ∧ ((1 ≤ batch_size (config a))%Z → e ≠ EmptyBufferError)).
Proof.
  unfold optimize_model. run_method. unfold this, on_generator.
  run_method. cbn [fst snd].
  destruct (Z.of_nat (length (buffer (memory a))) <? batch_size (config a))%Z eqn:Hguard.
  { left. split; [by apply Z.ltb_lt|reflexivity]. }
  apply Z.ltb_ge in Hguard. right. split; [exact Hguard|].
  cbn beta. cbn [fst snd].
  destruct (sample _ _ (memory a) g) as [[[[batch indices] weights]|e] g1] eqn:Hs;
    cbn [fst snd].
  2:{ exists e, g1. split; [reflexivity|]. intros Hsize.
      eapply sample_raise; [exact Hs|].
      destruct (buffer (memory a)); [simpl in Hguard; lia|done]. }
  destruct (double_q_targets _ _ _ batch) as [expected|e] eqn:Ht.
  2:{ exists e, g1. split; [reflexivity|]. intros _. by eapply double_q_targets_raise. }
  destruct (current_q _ batch) as [current|e] eqn:Hc.
  2:{ exists e, g1. split; [reflexivity|]. intros _. by eapply zipR_gather_raise. }
  rewrite load_global_F. eexists _, g1. by split.
Qed.

(** The guard of [optimize_model]. *)
Lemma optimize_model_few (a : t F) (g : RandomState) :
  (Z.of_nat (length (buffer (memory a))) < batch_size (config a))%Z →
  optimize_model (a, g) = (Ok f_zero, (a, g)).
Proof.
  intros Hfew. unfold optimize_model. run_method. unfold this. cbn [fst snd].
  by rewrite (proj2 (Z.ltb_lt _ _) Hfew).
Qed.

(** A call never changes the agent. *)
Lemma optimize_model_agent (a : t F) (g : RandomState) :
  (optimize_model (a, g)).2.1 = a.
Proof.
  destruct (optimize_model_outcome a g) as [[_ ->]|(_ & e & g' & -> & _)]; reflexivity.
Qed.

(** C4. When the store holds fewer than [batch_size] transitions,
    [optimize_model] returns 0.0 and raises nothing, and leaves the
    agent as it was: the store with its priorities and cursor, both
    networks, the optimizer, epsilon, the step counter and the log of
    the writer; the generator of [np.random] is not advanced
    either. *)
Theorem optimize_model_noop (a : t F) (g : RandomState) :
  (Z.of_nat (length (buffer (memory a))) < batch_size (config a))%Z →
  (optimize_model (a, g)).1 = Ok f_zero
  ∧ (optimize_model (a, g)).2 = (a, g).
Proof. intros Hfew. by rewrite optimize_model_few. Qed.

(** X13.  A batch size that is not positive lets an empty store
    through the guard: [optimize_model] then raises the empty-buffer
    error of [sample], and agent and generator are as before. *)
Lemma optimize_model_nonpositive_batch (a : t F) (g : RandomState) :
  buffer (memory a) = [] → (batch_size (config a) ≤ 0)%Z →
  optimize_model (a, g) = (Raise EmptyBufferError, (a, g)).
Proof.
  intros Hempty Hsize. unfold optimize_model. run_method.
  unfold this, on_generator. run_method. cbn [fst snd]. rewrite Hempty. cbn [length].
  rewrite (proj2 (Z.ltb_ge _ _)) by (cbn; lia). cbn beta. cbn [fst snd].
  rewrite BufferFacts.sample_empty by exact Hempty. by destruct a.
Qed.

(** C3. [sample] on a store that holds no transition raises the
    empty-buffer error, whatever [batch_size] and [beta] are (and
    leaves the generator alone); and [optimize_model], for a batch
    size of at least one, never ends with that error: it samples only
    after it found at least [batch_size] transitions in the store. *)
Theorem empty_buffer_error :
  (∀ (b : PrioritizedReplayBuffer.t F) (batch_size : Z) (beta : F) (g : RandomState),
      buffer b = [] → sample batch_size beta b g = (Raise EmptyBufferError, g))
  ∧ (∀ (a : t F) (g : RandomState),
      (1 ≤ batch_size (config a))%Z →
      (optimize_model (a, g)).1 ≠ Raise EmptyBufferError).
Proof.
  split.
  - intros b batch_size beta g Hb. by apply BufferFacts.sample_empty.
  - intros a g Hsize.
    destruct (optimize_model_outcome a g) as [[_ ->]|(_ & e & g' & -> & Herr)]; [done|].
    cbn [fst]. intros Heq. inversion Heq; subst. by apply Herr.
Qed.

(** *** Runs *)

Lemma run_snoc (evs : list event) (ev : event) (s : t F * RandomState) :
  run (evs ++ [ev]) s = run_event ev (run evs s).
Proof. unfold run. by rewrite foldl_app. Qed.

(** A push changes nothing of the agent but the store. *)
Lemma run_event_push (tr : Transition F) (a : t F) (g : RandomState) :
  ∃ m, run_event (Push tr) (a, g) = (set_memory m a, g).
Proof.
  unfold run_event, on_self. run_method. cbn [fst snd].
  destruct (push tr (memory a)) as [r m]. by exists m.
Qed.

(** Along a sequence of pushes and calls of [optimize_model] the store
    is all that changes of the agent. *)
Lemma run_store (evs : list event) (a : t F) (g : RandomState) :
  ∃ m, (run evs (a, g)).1 = set_memory m a.
Proof.
  induction evs as [|ev evs [m IH]] using rev_ind.
  - exists (memory a). by destruct a.
  - rewrite run_snoc. destruct (run evs (a, g)) as [a1 g1]. cbn [fst] in IH. subst a1.
    destruct ev as [tr|].
    + destruct (run_event_push tr (set_memory m a) g1) as [m' ->]. by exists m'.
    + unfold run_event. rewrite optimize_model_agent. by exists m.
Qed.

(** C7, on the code.  No call of [optimize_model] is an optimization
    step: a call that finds a batch raises before the gradient step,
    so lines 275-276 never run.  Along every sequence of pushes and
    calls of [optimize_model], from any agent, the step counter, the
    target parameters, the online parameters and the optimizer are
    what they were at the start; from an agent as [__init__] leaves
    it the counter is 0 and both networks are the network the agent
    was constructed with, however long the sequence. *)
Theorem target_never_synced (evs : list event) (g : RandomState) :
  (∀ a : t F,
      let a' := (run evs (a, g)).1 in
      steps a' = steps a ∧ target_net a' = target_net a
      ∧ policy_net a' = policy_net a ∧ optimizer a' = optimizer a)
  ∧ (∀ (cfg : DQNConfig F) (net : DQNetwork F),
      let a' := (run evs (__init__ cfg net, g)).1 in
      steps a' = 0%Z ∧ target_net a' = net ∧ policy_net a' = net).
Proof.
  split.
  - intros a. cbn zeta. by destruct (run_store evs a g) as [m ->].
  - intros cfg net. cbn zeta.
    by destruct (run_store evs (__init__ cfg net) g) as [m ->].
Qed.

(** *** The exploration rate *)

(** C6, on the code.  No call of [optimize_model] changes epsilon: the
    early return leaves it alone, and a call that finds a batch raises
    before line 277.  Along every sequence of pushes and calls of
    [optimize_model] epsilon is what it was at the start, and for an
    agent as [__init__] leaves it that is [epsilon_start], whether or
    not [epsilon_start] is above the floor. *)
Theorem epsilon_never_decays (a : t F) (g : RandomState) :
  epsilon (optimize_model (a, g)).2.1 = epsilon a
  ∧ (∀ evs, epsilon (run evs (a, g)).1 = epsilon a)
  ∧ (∀ cfg net evs, epsilon (run evs (__init__ cfg net, g)).1 = epsilon_start cfg).
Proof.
  split; [by rewrite optimize_model_agent|]. split.
  - intros evs. by destruct (run_store evs a g) as [m ->].
  - intros cfg net evs. by destruct (run_store evs (__init__ cfg net) g) as [m ->].
Qed.

(** The rule of line 277 and of [QAgent.decay_epsilon],
    [max(floor, epsilon * decay)], in exact arithmetic. *)

Context `{!ScalarOrder F} `{!ExactArith F}.

Lemma py_max2_eq (a b : F) : py_max2 a b = if f_ltb a b then b else a.
Proof. reflexivity. Qed.

(** [x <= y] and [y <= z] give [x <= z], where [x <= y] is read as
    "not [y < x]". *)
Lemma f_le_trans (x y z : F) :
  f_ltb y x = false → f_ltb z y = false → f_ltb z x = false.
Proof.
  intros Hxy Hyz. destruct (f_ltb z x) eqn:Hzx; [|reflexivity].
  destruct (f_ltb_cotrans z x y Hzx) as [Hzy|Hyx]; congruence.
Qed.

Lemma py_max2_floor (floor x : F) : f_ltb (py_max2 floor x) floor = false.
Proof.
  rewrite py_max2_eq. destruct (f_ltb floor x) eqn:Hlt.
  - by apply f_ltb_asym.
  - apply f_ltb_irrefl.
Qed.

Lemma decay_strict (floor eps decay : F) :
  f_ltb floor f_zero = false → f_ltb decay f_one = true →
  f_ltb floor eps = true →
  f_ltb (py_max2 floor (f_mul eps decay)) eps = true.
Proof.
  intros Hfloor Hdecay Heps.
  assert (f_ltb f_zero eps = true) as Hpos.
  { destruct (f_ltb f_zero eps) eqn:Hz; [reflexivity|].
    destruct (f_ltb_cotrans floor eps f_zero Heps) as [Hbad|Hbad]; congruence. }
  rewrite py_max2_eq. destruct (f_ltb floor (f_mul eps decay)); [|exact Heps].
  by apply f_mul_contract.
Qed.

Lemma decay_fixed (floor decay : F) :
  f_ltb floor f_zero = false → f_ltb decay f_one = true →
  py_max2 floor (f_mul floor decay) = floor.
Proof.
  intros Hfloor Hdecay. rewrite py_max2_eq.
  by rewrite (f_mul_noninc floor decay Hfloor Hdecay).
Qed.

Lemma decay_noninc (floor eps decay : F) :
  f_ltb floor f_zero = false → f_ltb decay f_one = true →
  f_ltb eps floor = false →
  f_ltb eps (py_max2 floor (f_mul eps decay)) = false.
Proof.
  intros Hfloor Hdecay Heps. rewrite py_max2_eq.
  destruct (f_ltb floor (f_mul eps decay)); [|exact Heps].
  apply f_mul_noninc; [|exact Hdecay].
  by apply (f_le_trans f_zero floor eps).
Qed.


(** *** Action selection *)

Lemma argmax_from_spec (pre xs : list F) (best : F) (best_i : nat) :
  pre !! best_i = Some best →
  (pre ++ xs) !! argmax_from best best_i (length pre) xs = Some (py_max_from best xs)
  ∧ argmax_from best best_i (length pre) xs < length (pre ++ xs).
Proof.
  revert pre best best_i.
  induction xs as [|x xs IH]; intros pre best best_i Hbest.
  - rewrite app_nil_r. split; [exact Hbest|]. by eapply lookup_lt_Some.
  - rewrite py_max_from_cons. cbn [argmax_from].
    replace (pre ++ x :: xs) with ((pre ++ [x]) ++ xs) by (by rewrite <- app_assoc).
    replace (S (length pre)) with (length (pre ++ [x]))
      by (rewrite length_app; simpl; lia).
    destruct (f_gtb x best).
    + apply IH. rewrite lookup_app_r by lia. by rewrite Nat.sub_diag.
    + apply IH. by apply lookup_app_l_Some.
Qed.

(** The index returned by [max(1)[1]] is in range, and nothing in the
    row is above the entry it points at. *)
Lemma torch_argmax_spec (q : list F) :
  q ≠ [] →
  ∃ i best, torch_argmax q = Ok i ∧ i < length q ∧ q !! i = Some best
            ∧ ∀ v, v ∈ q → f_ltb best v = false.
Proof.
  destruct q as [|x xs]; [done|]. intros _.
  destruct (argmax_from_spec [x] xs x 0 eq_refl) as [Hat Hlt].
  exists (argmax_from x 0 1 xs), (py_max_from x xs).
  split_and!; try done. intros v Hv. by apply py_max_from_upper.
Qed.

Lemma linear_length (l : Linear F) (x : list F) (rows : list nat) (n : nat) :
  linear_shape l = (rows, n) → length rows = n → length (linear l x) = n.
Proof.
  unfold linear_shape, linear. intros Hshape Hrows. inversion Hshape as [[Hw Hb]].
  rewrite length_zip_with, length_map.
  rewrite <- (length_map length (weight l)), Hw. lia.
Qed.

Lemma forward_length (net : DQNetwork F) (x : list F) (sd hd ad : nat) :
  shape_of net = architecture sd hd ad → length (forward net x) = ad.
Proof.
  unfold shape_of, architecture. intros Hshape.
  apply (f_equal snd) in Hshape. cbn [snd] in Hshape.
  unfold forward. eapply linear_length; [exact Hshape|]. apply length_replicate.
Qed.

Context `{!TorchSpec F}.

(** What the function of the first class statement does, on a state of
    [state_dim] numbers.  For an agent whose online network has the
    shape of its configuration, with [action_dim] at least one, it
    returns an integer of [0, action_dim) and does not raise.  It
    draws a number with [random.random()]; when the number is below
    epsilon the action is what [random.randrange(action_dim)] returns
    next, and otherwise it is the argmax of the online network's
    outputs for the state: the index [max(1)[1]] picks, whose output
    no other output exceeds. *)
Lemma select_action_spec (self : t F) (state : list F) (g : PyRandom) :
  well_formed self → (0 < action_dim (config self))%Z →
  Z.of_nat (length state) = state_dim (config self) →
  ∃ a g', select_action state self g = (Ok a, g')
    ∧ (0 ≤ a < action_dim (config self))%Z
    ∧ (f_ltb (random_random g).1 (epsilon self) = true →
       random_randrange (random_random g).2 (action_dim (config self)) = (inr a, g'))
    ∧ (f_ltb (random_random g).1 (epsilon self) = false →
       g' = (random_random g).2
       ∧ torch_argmax (forward (policy_net self) state) = Ok (Z.to_nat a)
       ∧ ∃ best, forward (policy_net self) state !! Z.to_nat a = Some best
                 ∧ ∀ v, v ∈ forward (policy_net self) state → f_ltb best v = false).
Proof.
  intros [Hshape _] Hdim _.
  unfold select_action. run_method.
  destruct (random_random g) as [u g1]. cbn [fst snd].
  destruct (f_ltb u (epsilon self)) eqn:Hexplore.
  - destruct (random_randrange_range g1 _ Hdim) as (k & g' & Hk & Hrange).
    rewrite Hk. exists k, g'. cbn. split_and!; try done; lia.
  - pose proof (forward_length (policy_net self) state _ _ _ Hshape) as Hlen.
    destruct (torch_argmax_spec (forward (policy_net self) state))
      as (i & best & Hi & Hlt & Hat & Hup).
    { intros Hnil. rewrite Hnil in Hlen. simpl in Hlen. lia. }
    rewrite Hi. exists (Z.of_nat i), g1. cbn. rewrite Nat2Z.id.
    split_and!; try done; [lia|lia|].
    intros _. split_and!; try done. by exists best.
Qed.

End Facts.

Section Methods.
Context {F : Type} `{Torch F} `{Numpy F}.

(** C2, on the code.  A call of [select_action] on an agent never
    draws a number and never returns an action: the class that
    [DQNAgent] stands for once the module has run is the one of the
    second class statement, whose body defines [__init__] and
    [optimize_model] only, and the lookup of the method raises
    [AttributeError], for every agent, every state and every state of
    the generator of [random], which is left as it was. *)
Theorem select_action_unbound (state : list F) (self : t F) (g : PyRandom) :
  module_classes !! "DQNAgent" = Some ["__init__"; "optimize_model"]
  ∧ method "select_action" (select_action state self) g
    = (Raise (AttributeError "'DQNAgent' object has no attribute 'select_action'"), g).
Proof.
  split; [exact DQNAgent_class|].
  by rewrite (method_missing "select_action").
Qed.

(** C9, on the code.  A call of [load_model] on an agent never opens
    the file: the lookup of the method raises [AttributeError], for
    every agent and every path, whatever the path holds and whatever
    the function of the first class statement (lines 219-231, which
    [load_model] stands for) would do with it.  The exception is not a
    wrapper of the cause of a failing load, which is never met; the
    agent is as it was. *)
Theorem load_model_unbound (load_model : string → M (t F) unit) (path : string)
    (self : t F) :
  method "load_model" (load_model path) self
  = (Raise (AttributeError "'DQNAgent' object has no attribute 'load_model'"), self).
Proof. by rewrite (method_missing "load_model"). Qed.

End Methods.
End AgentFacts.

(** ** The exact rationals satisfy the laws and the contracts *)

Module ExactQFacts.
Import ExactQ.

Lemma Qltb_lt (x y : Q) : Qltb x y = true ↔ (x < y)%Q.
Proof. unfold Qltb, Qlt. apply Z.ltb_lt. Qed.

Lemma Qltb_ge (x y : Q) : Qltb x y = false ↔ (y <= x)%Q.
Proof. unfold Qltb, Qle. rewrite Z.ltb_ge. reflexivity. Qed.

#[global] Instance Q_order : ScalarOrder Q.
Proof.
  split.
  - intros x. apply Qltb_ge. apply Qle_refl.
  - intros x y z Hxy%Qltb_lt Hyz%Qltb_lt. apply Qltb_lt. by eapply Qlt_trans.
  - reflexivity.
Qed.

#[global] Instance Q_exact : ExactArith Q.
Proof.
  split.
  - intros x y z Hxy%Qltb_lt.
    destruct (Qlt_le_dec x z) as [Hxz|Hzx].
    + left. by apply Qltb_lt.
    + right. apply Qltb_lt. by eapply Qle_lt_trans.
  - intros x d Hx%Qltb_lt Hd%Qltb_lt. apply Qltb_lt. cbn.
    rewrite Qred_correct.
    rewrite <- (Qmult_1_r x) at 2. by apply Qmult_lt_l.
  - intros x d Hx%Qltb_ge Hd%Qltb_lt. apply Qltb_ge. cbn.
    rewrite Qred_correct.
    rewrite <- (Qmult_1_r x) at 2.
    destruct (Qle_lt_or_eq _ _ Hx) as [Hpos|Hzero].
    + apply Qmult_le_l; [exact Hpos|]. by apply Qlt_le_weak.
    + rewrite <- Hzero. rewrite !Qmult_0_l. apply Qle_refl.
Qed.

#[global] Instance Q_numpy_spec : NumpySpec Q.
Proof.
  split.
  - intros g a size p idx g' Hchoice. cbn in Hchoice.
    destruct (bool_decide (0 < a)) eqn:Ha; [|discriminate].
    destruct (bool_decide (0 ≤ size)%Z) eqn:Hsize; [|discriminate].
    destruct (bool_decide (length p = a)) eqn:Hp; [|discriminate].
    apply bool_decide_eq_true in Ha. apply bool_decide_eq_true in Hsize.
    cbn in Hchoice. inversion Hchoice; subst. split.
    + rewrite length_map, length_seq. lia.
    + apply Forall_forall. intros i Hi.
      apply list_elem_of_fmap in Hi as (k & -> & _).
      apply Nat.mod_upper_bound. lia.
  - intros g a size p Ha Hsize Hp _. cbn.
    rewrite !bool_decide_eq_true_2 by done. cbn. eauto.
Qed.

#[global] Instance Q_torch_spec : TorchSpec Q.
Proof.
  split. intros g n Hn. cbn. rewrite (proj2 (Z.ltb_lt 0 n) Hn).
  eexists _, _. split; [reflexivity|]. apply Z.mod_pos_bound. exact Hn.
Qed.

End ExactQFacts.

(** ** IEEE numbers satisfy the laws of the order, not those of exact
    arithmetic *)

Module IEEEFacts.
Import IEEE.

Lemma SFltb_irrefl (x : spec_float) : SFltb x x = false.
Proof.
  unfold SFltb. destruct x as [s|s| |s m e]; try destruct s; simpl; try reflexivity.
  - rewrite Z.compare_refl. change (PosDef.Pos.compare_cont Eq m m) with (Pos.compare m m).
    by rewrite Pos.compare_refl.
  - rewrite Z.compare_refl. change (PosDef.Pos.compare_cont Eq m m) with (Pos.compare m m).
    by rewrite Pos.compare_refl.
Qed.

Lemma SFltb_trans (x y z : spec_float) :
  SFltb x y = true → SFltb y z = true → SFltb x z = true.
Proof.
  unfold SFltb.
  destruct x as [sx|sx| |sx mx ex]; destruct y as [sy|sy| |sy my ey];
    destruct z as [sz|sz| |sz mz ez];
    try destruct sx; try destruct sy; try destruct sz; simpl;
    try discriminate; try reflexivity.
  all: repeat match goal with
       | |- context [PosDef.Pos.compare_cont Eq ?a ?b] =>
           change (PosDef.Pos.compare_cont Eq a b) with (Pos.compare a b)
       end.
  all: destruct (Z.compare_spec ex ey); destruct (Z.compare_spec ey ez);
       destruct (Z.compare_spec ex ez); simpl; try discriminate; try reflexivity; try lia.
  all: destruct (Pos.compare_spec mx my); destruct (Pos.compare_spec my mz);
       destruct (Pos.compare_spec mx mz); simpl; try discriminate; try reflexivity; try lia.
Qed.

Lemma binary32_order : @ScalarOrder spec_float binary32.
Proof. split; [apply SFltb_irrefl|apply SFltb_trans|reflexivity]. Qed.

Lemma binary64_order : @ScalarOrder spec_float binary64.
Proof. split; [apply SFltb_irrefl|apply SFltb_trans|reflexivity]. Qed.

(** In binary64, with the floor at 0.0 and epsilon at 5e-324, above the
    floor, the decay rule returns epsilon itself: the product with 0.995
    rounds back to 5e-324. *)
Lemma binary64_decay_stalls :
  @f_ltb _ binary64 (@f_zero _ binary64) tiny64 = true
  ∧ @f_ltb _ binary64 decay64 (@f_one _ binary64) = true
  ∧ @py_max2 _ binary64 (@f_zero _ binary64) (@f_mul _ binary64 tiny64 decay64) = tiny64.
Proof. by vm_compute. Qed.

End IEEEFacts.

(** ** The targets of Double Q-learning *)

Lemma mapR_lookup {A B} (f : A → Result B) (l : list A) (ys : list B) (i : nat) (x : A) :
  mapR f l = Ok ys → l !! i = Some x → ∃ y, f x = Ok y ∧ ys !! i = Some y.
Proof.
  revert ys i. induction l as [|x0 l IH]; intros ys i Hmap Hi; [done|].
  simpl in Hmap. destruct (f x0) as [y0|e] eqn:Hx0; [|discriminate].
  destruct (mapR f l) as [ys'|e] eqn:Hl; [|discriminate].
  inversion Hmap; subst. destruct i as [|i]; simpl in *.
  - inversion Hi; subst. by exists y0.
  - by apply IH.
Qed.

Lemma mapR_length {A B} (f : A → Result B) (l : list A) (ys : list B) :
  mapR f l = Ok ys → length ys = length l.
Proof.
  revert ys. induction l as [|x0 l IH]; intros ys Hmap; simpl in *.
  - by inversion Hmap.
  - destruct (f x0); [|discriminate]. destruct (mapR f l); [|discriminate].
    inversion Hmap; subst. simpl. f_equal. by apply IH.
Qed.

Module TargetFacts.
Import PrioritizedReplayBuffer DQNAgent.
Section Facts.
Context {F : Type} `{Scalar F}.

(** Entry (i, j) of the broadcast sum takes reward and terminal flag
    from position j and the bootstrap value from position i. *)
Lemma expected_q_values_entry (gamma : F) (rewards dones values : list F)
    (i j : nat) (r d v : F) :
  rewards !! j = Some r → dones !! j = Some d → values !! i = Some v →
  ∃ row, expected_q_values gamma rewards dones values !! i = Some row
         ∧ row !! j = Some (f_add r (f_mul (f_mul (f_sub f_one d) gamma) v)).
Proof.
  intros Hr Hd Hv. unfold expected_q_values, row_op_matrix, row_op_column.
  eexists. split.
  - rewrite !list_lookup_fmap, Hv. reflexivity.
  - apply lookup_zip_with_Some. eexists _, _. split; [reflexivity|].
    split; [exact Hr|]. by rewrite !list_lookup_fmap, Hd.
Qed.

(** What [double_q_targets] computes, entry by entry: a square matrix
    whose entry (i, j) adds the reward of transition j to the
    discounted value that the target network gives, at the online
    network's best action, to the next state of transition i, the
    discount being cut by the terminal flag of transition j. *)
Lemma double_q_targets_entry (policy_net target_net : DQNetwork F) (gamma : F)
    (batch : list (Transition F)) (m : list (list F)) (i j : nat)
    (tri trj : Transition F) :
  double_q_targets policy_net target_net gamma batch = Ok m →
  batch !! i = Some tri → batch !! j = Some trj →
  ∃ a v row,
    torch_argmax (forward policy_net (next_state tri)) = Ok a
    ∧ torch_gather (forward target_net (next_state tri)) (Z.of_nat a) = Ok v
    ∧ m !! i = Some row
    ∧ row !! j = Some (f_add (reward trj)
                         (f_mul (f_mul (f_sub f_one (f_of_bool (done trj))) gamma) v)).
Proof.
  unfold double_q_targets. run_method. intros Hm Hi Hj.
  destruct (mapR _ (map next_state batch)) as [next_actions|e] eqn:Ha; [|discriminate].
  destruct (zipR _ _ _) as [values|e] eqn:Hv; [|discriminate].
  inversion Hm; subst. clear Hm.
  destruct (mapR_lookup _ _ _ i (next_state tri) Ha) as (a & Harg & Hai).
  { by rewrite list_lookup_fmap, Hi. }
  unfold zipR in Hv.
  destruct (mapR_lookup _ _ _ i (forward target_net (next_state tri), Z.of_nat a) Hv)
    as (v & Hgather & Hvi).
  { apply lookup_zip_with_Some. eexists _, _. split; [reflexivity|].
    by rewrite !list_lookup_fmap, Hi, Hai. }
  destruct (expected_q_values_entry gamma (map reward batch)
              (map (λ tr, f_of_bool (done tr)) batch) values i j
              (reward trj) (f_of_bool (done trj)) v) as (row & Hrow & Hentry);
    try (by rewrite list_lookup_fmap, Hj); [exact Hvi|].
  exists a, v, row. done.
Qed.

(** On the diagonal the entry is the specified target of the
    transition. *)
Lemma double_q_targets_diagonal (policy_net target_net : DQNetwork F) (gamma : F)
    (batch : list (Transition F)) (m : list (list F)) (i : nat) (tr : Transition F) :
  double_q_targets policy_net target_net gamma batch = Ok m →
  batch !! i = Some tr →
  ∃ y row, specified_target policy_net target_net gamma tr = Ok y
           ∧ m !! i = Some row ∧ row !! i = Some y.
Proof.
  intros Hm Hi.
  destruct (double_q_targets_entry _ _ _ _ _ i i tr tr Hm Hi Hi)
    as (a & v & row & Ha & Hv & Hrow & Hentry).
  eexists _, row. split; [|done].
  unfold specified_target. run_method. by rewrite Ha, Hv.
Qed.

End Facts.

Import ExactQ Examples.

(** C1, on the code.  A batch of two transitions, the first going on
    with reward 0 and the second terminal with reward +1, gamma =
    0.99: the specified targets are 1.98 and 1, but [double_q_targets]
    yields the matrix ((1.98, 1), (2.97, 1)), whose row of the terminal
    transition holds 2.97 = 0 + 0.99 * 3, a target that bootstraps
    from the next state of the terminal transition. *)
Theorem double_q_targets_broadcast :
  specified_target net1 net1 (99 # 100) going = Ok (99 # 50)
  ∧ specified_target net1 net1 (99 # 100) terminal = Ok 1%Q
  ∧ double_q_targets net1 net1 (99 # 100) [going; terminal]
    = Ok [[99 # 50; 1%Q]; [297 # 100; 1%Q]].
Proof. by vm_compute. Qed.

(** A batch that is the terminal transition alone does get the target
    1.0, in exact arithmetic and in binary32. *)
Lemma terminal_target_alone :
  double_q_targets net1 net1 (99 # 100) [terminal] = Ok [[1%Q]]
  ∧ double_q_targets (H:=IEEE.binary32) Examples32.net1 Examples32.net1 Examples32.gamma
      [Examples32.terminal] = Ok [[Examples32.one]].
Proof. by vm_compute. Qed.

End TargetFacts.

(** ** Which calls of [optimize_model] return *)

Module StepFacts.
Import PrioritizedReplayBuffer DQNAgent.
Section Facts.
Context {F : Type} `{Torch F} `{Numpy F}.

Lemma double_q_targets_shape (policy_net target_net : DQNetwork F) (gamma : F)
    (batch : list (Transition F)) (m : list (list F)) :
  double_q_targets policy_net target_net gamma batch = Ok m →
  length m = length batch ∧ Forall (λ row, length row = length batch) m.
Proof.
  unfold double_q_targets. run_method.
  destruct (mapR _ (map next_state batch)) as [next_actions|e] eqn:Ha; [|discriminate].
  destruct (zipR _ _ _) as [values|e] eqn:Hv; [|discriminate].
  intros Hm. inversion Hm; subst. clear Hm.
  apply mapR_length in Ha. rewrite length_map in Ha.
  unfold zipR in Hv. apply mapR_length in Hv.
  rewrite length_zip_with, !length_map, Ha in Hv.
  unfold expected_q_values, row_op_matrix, row_op_column.
  rewrite !length_map. split; [lia|].
  apply Forall_forall. intros row Hrow.
  apply list_elem_of_fmap in Hrow as (row' & -> & Hrow').
  apply list_elem_of_fmap in Hrow' as (v & -> & _).
  rewrite length_zip_with, !length_map. lia.
Qed.

(** X10.  [optimize_model] returns a value only through its early
    return: when a call returns, the store held fewer than
    [batch_size] transitions, the value is 0.0, and neither the agent
    nor the generator of [np.random] has changed.  A call that finds a
    batch in the store never returns a loss. *)
Theorem optimize_model_returns_early (a : t F) (g : RandomState) (loss : F)
    (s' : t F * RandomState) :
  optimize_model (a, g) = (Ok loss, s') →
  (Z.of_nat (length (buffer (memory a))) < batch_size (config a))%Z
  ∧ loss = f_zero ∧ s' = (a, g).
Proof.
  intros Hrun.
  destruct (AgentFacts.optimize_model_outcome a g)
    as [[Hfew Hearly]|(_ & e & g' & Hraise & _)].
  - rewrite Hearly in Hrun. inversion Hrun; subst. done.
  - rewrite Hraise in Hrun. discriminate.
Qed.

End Facts.
End StepFacts.

(** ** The tabular variant *)

Module TabularFacts.
Import QAgent.
Section Facts.
Context {F : Type} `{Scalar F}.

Lemma discretize_state_length (ball : Ball F) (paddle : Paddle F) :
  length (discretize_state ball paddle) = 5.
Proof. reflexivity. Qed.

Lemma init_table_dimensions (difficulty : string) :
  shape (q_table (__init__ (F:=F) difficulty)) = [12; 12; 6; 6; 3].
Proof. reflexivity. Qed.

(** C8, on the code.  The table is built from the four numbers of
    [STATE_BINS] and the number of actions, so it has five axes, while
    [discretize_state] returns five components: with the action the
    index of an entry has six.  On every agent whose table has the
    shape [__init__] gives it, and for every pair of discretized
    states, every action and every reward, [update] raises
    [IndexError] at its first read and changes nothing; no entry is
    ever replaced. *)
Theorem update_discretized_raises (self : t F) (ball ball' : Ball F)
    (paddle paddle' : Paddle F) (action : Z) (reward : F) :
  shape (q_table self) = STATE_BINS ++ [length ACTIONS] →
  update (discretize_state ball paddle) action reward
         (discretize_state ball' paddle') self
  = (Raise (IndexError "too many indices for array"), self).
Proof.
  intros Hshape. unfold update. run_method.
  unfold np_getitem at 1. unfold np_locate. rewrite Hshape. reflexivity.
Qed.

(** X20.  Where the index of an entry has as many components as the
    table has axes, [update] is the one-step rule: the entry [q] selected by
    the old state and the action becomes
    [q + alpha * (reward + gamma * future - q)], with [future] the
    maximum over the entries selected by the new state; no other entry
    changes and the shape stays. *)
Lemma update_rule (self : t F) (old_state new_state : list Z) (action : Z) (reward : F)
    (offset offset' : nat) (rest : list nat) (q future : F) :
  np_locate (q_table self) (old_state ++ [action]) = Ok (offset, []) →
  data (q_table self) !! offset = Some q →
  np_locate (q_table self) new_state = Ok (offset', rest) →
  np_max (take (size_of rest) (drop offset' (data (q_table self)))) = Ok future →
  update old_state action reward new_state self
  = (Ok tt,
     set_q_table
       (mkArray (shape (q_table self))
          (<[offset := f_add q (f_mul (alpha self)
                                  (f_sub (f_add reward (f_mul (gamma self) future)) q))]>
             (data (q_table self))))
       self).
Proof.
  intros Hold Hq Hnew Hmax.
  assert (take 1 (drop offset (data (q_table self))) = [q]) as Hsel.
  { destruct (drop offset (data (q_table self))) as [|x xs] eqn:Hdrop.
    - pose proof (lookup_drop (data (q_table self)) offset 0) as Hl.
      rewrite Hdrop, Nat.add_0_r, Hq in Hl. discriminate.
    - pose proof (lookup_drop (data (q_table self)) offset 0) as Hl.
      rewrite Hdrop, Nat.add_0_r, Hq in Hl. simpl in Hl. by inversion Hl. }
  unfold update. run_method. unfold np_getitem, np_iadd. run_method.
  rewrite Hold. cbn [size_of fold_right]. rewrite Hnew. cbn [data].
  rewrite Hmax, Hsel. cbn.
  do 3 f_equal. rewrite (insert_take_drop (data (q_table self)) offset).
  - by rewrite Nat.add_1_r.
  - by eapply lookup_lt_Some.
Qed.

End Facts.

Import ExactQ.

(** With states of four components, one per number of [STATE_BINS],
    the same [update] applies the rule: from the zero table, alpha =
    0.1, gamma = 0.95 and reward 1 put 0.1 into the entry of the state
    and the action and leave the other 15551 entries at zero, in a
    table of the same shape. *)
Lemma update_four_components :
  update (F:=Q) [0; 0; 0; 0]%Z 0 1%Q [0; 0; 0; 0]%Z (__init__ "medium")
  = (Ok tt, set_q_table (mkArray [12; 12; 6; 6; 3]
                                 ((1 # 10) :: replicate (12 * 12 * 6 * 6 * 3 - 1) 0%Q))
                        (__init__ "medium")).
Proof. by vm_compute. Qed.

End TabularFacts.

(** ** The properties at concrete agents and stores *)

Module Instances.
Import PrioritizedReplayBuffer DQNAgent ExactQ ExactQFacts Examples.

Lemma store0_wf : wf store0 ∧ ring_of store0 [].
Proof. split; [apply BufferFacts.wf_init|apply BufferFacts.ring_init]; lia. Qed.

Lemma store1_wf : wf store1 ∧ ring_of store1 [terminal].
Proof.
  destruct store0_wf as [Hwf Hring]. split.
  - by apply (BufferFacts.wf_push store0 []).
  - by apply (BufferFacts.ring_push store0 []).
Qed.

Lemma agent1_well_formed : well_formed agent1.
Proof. by split. Qed.

(** The scenario of the specification: after five pushes into four
    places the store holds the rewards 5, 2, 3, 4, the transition with
    reward 1 is gone, and the cursor is at slot 1. *)
Lemma ring_scenario :
  map reward (buffer store5) = [5; 2; 3; 4]%Q ∧ position store5 = 1
  ∧ priorities store5 = [1; 1; 1; 1]%Q.
Proof. by vm_compute. Qed.

(** The first call on a store that holds a batch: batch size one, one
    transition stored, step counter 0.  The call raises the
    [NameError] of line 265; the agent is as it was and the generator
    of [np.random] has dealt one index. *)
Lemma first_step_raises :
  optimize_model (agent1, seed)
  = (Raise (NameError "name 'F' is not defined"), (agent1, 1)).
Proof. by vm_compute. Qed.

(** A batch of two does the same. *)
Lemma batch_of_two_raises :
  optimize_model (agent2, seed)
  = (Raise (NameError "name 'F' is not defined"), (agent2, 2)).
Proof. by vm_compute. Qed.

(** The call of [test_action_selection], on a state of one number: the
    function of the first class statement would return the action 1,
    but the call raises and draws nothing. *)
Lemma select_action_on_agent1 :
  select_action [1%Q] agent1 py_seed = (Ok 1%Z, 2)
  ∧ method "select_action" (select_action [1%Q] agent1) py_seed
    = (Raise (AttributeError "'DQNAgent' object has no attribute 'select_action'"),
       py_seed).
Proof. by vm_compute. Qed.

Lemma empty_buffer_error_witness :
  buffer store0 = [] ∧ (1 ≤ batch_size (config agent1))%Z
  ∧ sample 3 1%Q store0 seed = (Raise EmptyBufferError, seed)
  ∧ (optimize_model (agent1, seed)).1 ≠ Raise EmptyBufferError.
Proof.
  destruct (AgentFacts.empty_buffer_error (F:=Q)) as [Hsample Hoptimize].
  split; [reflexivity|]. split; [by vm_compute|].
  split; [by apply Hsample|]. apply Hoptimize. by vm_compute.
Defined.

Lemma optimize_model_noop_witness :
  (Z.of_nat (length (buffer (memory agent64_1))) < batch_size (config agent64_1))%Z
  ∧ (optimize_model (agent64_1, seed)).1 = Ok 0%Q
  ∧ (optimize_model (agent64_1, seed)).2 = (agent64_1, seed).
Proof.
  split; [by vm_compute|]. apply (AgentFacts.optimize_model_noop agent64_1 seed).
  by vm_compute.
Defined.

Lemma push_spec_witness :
  wf store1 ∧ ring_of store1 [terminal]
  ∧ ∃ b', push going store1 = (Ok tt, b')
          ∧ buffer b' !! position store1 = Some going
          ∧ position b' = (position store1 + 1) `mod` capacity store1.
Proof.
  destruct store1_wf as [Hwf Hring]. split; [exact Hwf|]. split; [exact Hring|].
  destruct (BufferFacts.push_spec store1 [terminal] going Hwf Hring)
    as (b' & Hpush & _ & _ & Hat & _ & _ & _ & _ & _ & _ & _ & Hnext).
  by exists b'.
Defined.

Lemma sample_spec_witness :
  buffer store1 ≠ [] ∧ length (buffer store1) ≤ length (priorities store1)
  ∧ (1 ≤ 3)%Z ∧ np_valid_p (probabilities store1) = true
  ∧ ∃ batch indices weights g',
      sample 3 1%Q store1 seed = (Ok (batch, indices, weights), g')
      ∧ Z.of_nat (length batch) = 3%Z
      ∧ Forall (λ i, i < length (buffer store1)) indices.
Proof.
  assert (buffer store1 ≠ []) as Hne by (by vm_compute).
  assert (length (buffer store1) ≤ length (priorities store1)) as Hle
    by (vm_compute; lia).
  assert (np_valid_p (probabilities store1) = true) as Hvalid by (by vm_compute).
  split; [exact Hne|]. split; [exact Hle|]. split; [lia|]. split; [exact Hvalid|].
  destruct (BufferFacts.sample_spec store1 3 1%Q seed Hne Hle ltac:(lia) Hvalid)
    as (batch & indices & weights & g' & Heq & Hb & _ & _ & Hrange & _).
  by exists batch, indices, weights, g'.
Defined.

(** The agent with the default batch size of 64 and one transition
    stored has epsilon 1.0 above its floor 0.01, and a call of
    [optimize_model] leaves epsilon at 1.0. *)
Lemma epsilon_not_decreased :
  ¬ (f_ltb (epsilon_end (config agent64_1)) (epsilon agent64_1) = true →
     f_ltb (epsilon (optimize_model (agent64_1, seed)).2.1) (epsilon agent64_1) = true).
Proof. intros Hclaim. specialize (Hclaim eq_refl). by vm_compute in Hclaim. Qed.

(** The calls of [test_epsilon_decay]: a hundred calls of
    [optimize_model] on an agent that has stored nothing.  Epsilon is
    still [epsilon_start], 1.0, where the test asserts a smaller
    value; so it is after a hundred calls on a store that holds a
    batch, each of which raises. *)
Lemma epsilon_after_hundred_calls :
  epsilon (run (replicate 100 Optimize) (agent64, seed)).1 = 1%Q
  ∧ epsilon (run (replicate 100 Optimize) (agent1, seed)).1 = 1%Q
  ∧ steps (run (replicate 100 Optimize) (agent1, seed)).1 = 0%Z.
Proof. by vm_compute. Qed.

Lemma update_discretized_raises_witness :
  QAgent.shape (QAgent.q_table (QAgent.__init__ (F:=Q) "medium"))
    = QAgent.STATE_BINS ++ [length QAgent.ACTIONS]
  ∧ QAgent.update (QAgent.discretize_state (QAgent.mkBall 391 241 7 0)%Q
                                            (QAgent.mkPaddle 200%Q))
                  0 1%Q
                  (QAgent.discretize_state (QAgent.mkBall 398 241 7 0)%Q
                                           (QAgent.mkPaddle 200%Q))
                  (QAgent.__init__ "medium")
    = (Raise (IndexError "too many indices for array"), QAgent.__init__ "medium").
Proof.
  split; [reflexivity|].
  by apply (TabularFacts.update_discretized_raises (QAgent.__init__ "medium")).
Defined.

End Instances.

(** * Further properties of the code *)

(** ** Runs of the experience store *)

Lemma mapR_ok {A B} (f : A → Result B) (l : list A) :
  Forall (λ x, ∃ y, f x = Ok y) l → ∃ ys, mapR f l = Ok ys.
Proof.
  induction 1 as [|x l [y Hy] _ [ys Hys]]; [by exists []|].
  exists (y :: ys). simpl. by rewrite Hy, Hys.
Qed.

(** An index is accepted exactly when it is within the axis, counted
    from the front or from the end. *)
Lemma np_index_cases (n : nat) (i : Z) :
  ((- Z.of_nat n ≤ i < Z.of_nat n)%Z ∧ ∃ k, np_index n i = Ok k ∧ k < n)
  ∨ (¬ (- Z.of_nat n ≤ i < Z.of_nat n)%Z
     ∧ np_index n i = Raise (IndexError "index out of bounds")).
Proof.
  unfold np_index.
  destruct ((0 <=? i)%Z && (i <? Z.of_nat n)%Z) eqn:Hpos.
  { apply andb_prop in Hpos as [H0%Z.leb_le Hn%Z.ltb_lt].
    left. split; [lia|]. exists (Z.to_nat i). split; [reflexivity|lia]. }
  destruct ((- Z.of_nat n <=? i)%Z && (i <? 0)%Z) eqn:Hneg.
  { apply andb_prop in Hneg as [H0%Z.leb_le Hn%Z.ltb_lt].
    left. split; [lia|]. exists (Z.to_nat (i + Z.of_nat n)). split; [reflexivity|lia]. }
  right. split; [|reflexivity].
  apply andb_false_iff in Hpos. apply andb_false_iff in Hneg.
  rewrite Z.leb_gt, Z.ltb_ge in Hpos. rewrite Z.leb_gt, Z.ltb_ge in Hneg. lia.
Qed.

Module StoreRuns.
Import PrioritizedReplayBuffer.
Section Facts.
Context {F : Type} `{ScalarOrder F} `{Numpy F}.

(** Nothing above the first item: the first item is the maximum. *)
Lemma py_max_from_first (x : F) (xs : list F) :
  Forall (λ y, f_ltb x y = false) xs → py_max_from x xs = x.
Proof.
  induction 1 as [|y ys Hy _ IH]; [reflexivity|].
  rewrite py_max_from_cons. unfold f_gtb. by rewrite Hy.
Qed.

(** In a store whose held priorities are all 1.0 a push assigns 1.0. *)
Lemma max_priority_fresh (b : t F) :
  wf b → Forall (λ p, p = f_one) (held b) → max_priority b = Ok f_one.
Proof.
  intros [Hc Hlen Hheld Hfree] Hones. unfold max_priority.
  destruct (buffer b) as [|tr0 trs] eqn:Hb; [reflexivity|].
  rewrite <- Hb in *.
  assert (Forall (λ p, f_ltb f_one p = false) (priorities b)) as Hall.
  { rewrite <- (take_drop (length (buffer b)) (priorities b)).
    apply Forall_app. split.
    - eapply Forall_impl; [exact Hones|]. intros p ->. apply f_ltb_irrefl.
    - eapply Forall_impl; [exact Hfree|]. intros p ->. apply f_one_nonneg. }
  destruct (priorities b) as [|p ps] eqn:Hp.
  { simpl in Hlen. lia. }
  assert (p = f_one) as ->.
  { unfold held in Hones. rewrite Hp, Hb in Hones. simpl in Hones.
    by inversion Hones. }
  simpl. f_equal. apply py_max_from_first. by inversion Hall.
Qed.

Lemma held_push_fresh (b : t F) pushed tr :
  wf b → ring_of b pushed → Forall (λ p, p = f_one) (held b) →
  Forall (λ p, p = f_one) (held (after (push tr) b)).
Proof.
  intros Hwf Hring Hones.
  pose proof (max_priority_fresh b Hwf Hones) as Hm.
  unfold after. rewrite (BufferFacts.push_run b pushed tr f_one Hwf Hring Hm).
  pose proof (BufferFacts.ring_position_lt b pushed (wf_capacity _ Hwf) Hring) as Hpos.
  destruct Hwf as [Hc Hlen Hheld Hfree].
  rewrite Forall_lookup in Hones.
  unfold held; simpl. apply Forall_lookup. intros i x Hi.
  apply lookup_take_Some in Hi as [Hi Hlt].
  destruct (decide (i = position b)) as [->|Hne].
  - rewrite list_lookup_insert_eq in Hi by lia. by inversion Hi.
  - rewrite list_lookup_insert_ne in Hi by done.
    apply (Hones i). unfold held. rewrite lookup_take_lt; [exact Hi|].
    destruct (length (buffer b) <? capacity b) eqn:Hfull.
    + apply Nat.ltb_lt in Hfull.
      destruct (BufferFacts.ring_not_full b pushed Hring Hfull) as [_ Hp].
      rewrite length_app in Hlt; simpl in Hlt. lia.
    + by rewrite length_insert in Hlt.
Qed.

(** A run of pushes from a store that satisfies its invariant. *)
Lemma push_all_run (trs : list (Transition F)) (b : t F) pushed :
  wf b → ring_of b pushed → Forall (λ p, p = f_one) (held b) →
  ∃ b', push_all trs b = (Ok tt, b') ∧ wf b' ∧ ring_of b' (pushed ++ trs)
        ∧ Forall (λ p, p = f_one) (held b') ∧ capacity b' = capacity b.
Proof.
  revert b pushed. induction trs as [|tr trs IH]; intros b pushed Hwf Hring Hones.
  - exists b. rewrite app_nil_r. done.
  - pose proof (max_priority_fresh b Hwf Hones) as Hm.
    pose proof (BufferFacts.push_run b pushed tr f_one Hwf Hring Hm) as Hrun.
    pose proof (BufferFacts.wf_push b pushed tr Hwf Hring) as Hwf1.
    pose proof (BufferFacts.ring_push b pushed tr Hwf Hring) as Hring1.
    pose proof (held_push_fresh b pushed tr Hwf Hring Hones) as Hones1.
    unfold after in Hwf1, Hring1, Hones1. rewrite Hrun in Hwf1, Hring1, Hones1.
    cbn [snd] in Hwf1, Hring1, Hones1.
    destruct (IH _ _ Hwf1 Hring1 Hones1) as (b' & Hall & Hwf' & Hring' & Hones' & Hcap).
    exists b'. rewrite <- app_assoc in Hring'. split_and!; try done.
    cbn [push_all]. run_method. rewrite Hrun. exact Hall.
Qed.

(** X1.  Transitions pushed one after the other into a store created
    with a positive capacity: no push raises, whatever the number of
    transitions.  The store then satisfies its invariant and holds the
    last [capacity] of them (all of them while they are fewer), the
    k-th one in slot [k mod capacity], so never more than [capacity];
    the cursor is at the number of pushes modulo the capacity; and
    every transition held has the priority 1.0, since each push
    assigns the maximum of priorities that are all 1.0. *)
Theorem push_all_from_init (capacity : nat) (alpha : F) (trs : list (Transition F)) :
  0 < capacity →
  ∃ b, push_all trs (__init__ capacity alpha) = (Ok tt, b)
    ∧ wf b
    ∧ length (buffer b) = length trs `min` capacity
    ∧ position b = length trs `mod` capacity
    ∧ (∀ k, k < length trs → length trs ≤ k + capacity →
            buffer b !! (k `mod` capacity) = trs !! k)
    ∧ Forall (λ p, p = f_one) (held b).
Proof.
  intros Hc.
  destruct (push_all_run trs (__init__ capacity alpha) [])
    as (b & Hall & Hwf & Hring & Hones & Hcap).
  - by apply BufferFacts.wf_init.
  - by apply BufferFacts.ring_init.
  - unfold held. simpl. by rewrite take_0.
  - exists b. destruct Hring as [Hp Hl Hs]. simpl in *. rewrite Hcap in *.
    split_and!; done.
Qed.

(** X2.  A store created with capacity 0 accepts nothing: a push takes
    the branch of the full ring and assigns to a slot of the empty
    list, which raises [IndexError]; the store is left as it was. *)
Theorem push_without_capacity (b : t F) (tr : Transition F) :
  capacity b = 0 → buffer b = [] →
  push tr b = (Raise (IndexError "list assignment index out of range"), b).
Proof.
  intros Hc Hb. unfold push. run_method. unfold max_priority, list_setitem.
  rewrite Hb, Hc. cbn. by destruct (position b).
Qed.

(** *** [update_priorities] *)

(** The assignments of a run of [update_priorities] whose indices are
    within the array and whose priorities are scalars. *)
Lemma update_priorities_run (ws : list (nat * F)) (b : t F) :
  Forall (λ w, w.1 < length (priorities b)) ws →
  ∃ p', update_priorities (map (λ w, Z.of_nat w.1) ws) (map (λ w, np_scalar w.2) ws) b
          = (Ok tt, set_priorities p' b)
    ∧ length p' = length (priorities b)
    ∧ (∀ i, i ∉ ws.*1 → p' !! i = priorities b !! i)
    ∧ (∀ pre i x post, ws = pre ++ (i, x) :: post → i ∉ post.*1 → p' !! i = Some x).
Proof.
  revert b. induction ws as [|[i x] ws IH]; intros b Hin.
  - exists (priorities b). split_and!; try done.
    + by destruct b.
    + intros [|] ? ? ? Heq; discriminate.
  - inversion Hin as [|? ? Hi Hin']; subst. cbn [fst] in Hi.
    destruct (IH (set_priorities (<[i:=x]> (priorities b)) b))
      as (p' & Hrun & Hlen & Hkeep & Hlast).
    { simpl. eapply Forall_impl; [exact Hin'|]. intros w Hw. by rewrite length_insert. }
    exists p'. simpl in Hlen, Hkeep. rewrite length_insert in Hlen.
    split_and!.
    + cbn [map update_priorities fst snd]. run_method. unfold np_setitem.
      rewrite np_index_of_nat by exact Hi. cbn. exact Hrun.
    + exact Hlen.
    + intros j Hj. rewrite fmap_cons in Hj. cbn in Hj.
      apply not_elem_of_cons in Hj as [Hne Hj].
      rewrite (Hkeep j Hj). by rewrite list_lookup_insert_ne.
    + intros pre j y post Heq Hj. destruct pre as [|w pre].
      * simpl in Heq. inversion Heq; subst.
        rewrite (Hkeep j Hj). by apply list_lookup_insert_eq.
      * simpl in Heq. inversion Heq; subst. by eapply Hlast.
Qed.

(** X3.  [update_priorities] with indices inside the priority array
    and scalar priorities does not raise and changes nothing but the
    priority array, whose length stays: a slot that no index names
    keeps its priority, and a slot named several times keeps the
    priority written last. *)
Theorem update_priorities_writes (ws : list (nat * F)) (b : t F) :
  Forall (λ w, w.1 < length (priorities b)) ws →
  ∃ b', update_priorities (map (λ w, Z.of_nat w.1) ws) (map (λ w, np_scalar w.2) ws) b
          = (Ok tt, b')
    ∧ buffer b' = buffer b ∧ position b' = position b
    ∧ capacity b' = capacity b ∧ alpha b' = alpha b
    ∧ length (priorities b') = length (priorities b)
    ∧ (∀ i, i ∉ ws.*1 → priorities b' !! i = priorities b !! i)
    ∧ (∀ pre i x post, ws = pre ++ (i, x) :: post → i ∉ post.*1 →
          priorities b' !! i = Some x).
Proof.
  intros Hin.
  destruct (update_priorities_run ws b Hin) as (p' & Hrun & Hlen & Hkeep & Hlast).
  exists (set_priorities p' b). split_and!; done.
Qed.

(** X4.  An index outside the priority array (beyond its end, or more
    negative than its length) makes [update_priorities] raise
    [IndexError] at that pair: the assignments of the pairs before it
    have been made and stay, those of the pairs after it are not
    made. *)
Theorem update_priorities_out_of_range (ws : list (nat * F)) (idx : Z) (v : np_value F)
    (indices : list Z) (vs : list (np_value F)) (b : t F) :
  Forall (λ w, w.1 < length (priorities b)) ws →
  ¬ (- Z.of_nat (length (priorities b)) ≤ idx < Z.of_nat (length (priorities b)))%Z →
  ∃ b', update_priorities (map (λ w, Z.of_nat w.1) ws) (map (λ w, np_scalar w.2) ws) b
          = (Ok tt, b')
    ∧ update_priorities (map (λ w, Z.of_nat w.1) ws ++ idx :: indices)
                        (map (λ w, np_scalar w.2) ws ++ v :: vs) b
          = (Raise (IndexError "index out of bounds"), b').
Proof.
  revert b. induction ws as [|[i x] ws IH]; intros b Hin Hout.
  - exists b. split; [reflexivity|].
    cbn [map app update_priorities]. run_method. unfold np_setitem.
    by destruct (np_index_cases (length (priorities b)) idx) as [[? _]|[_ ->]].
  - inversion Hin as [|? ? Hi Hin']; subst. cbn [fst] in Hi.
    destruct (IH (set_priorities (<[i:=x]> (priorities b)) b)) as (b' & Hrun & Hraise).
    { simpl. eapply Forall_impl; [exact Hin'|]. intros w Hw. by rewrite length_insert. }
    { simpl. by rewrite length_insert. }
    exists b'. cbn [map app update_priorities fst snd]. run_method. unfold np_setitem.
    rewrite np_index_of_nat by exact Hi. cbn. by split.
Qed.

Context `{!NumpySpec F}.

(** X6.  [sample] with a batch size of 0 on a store that holds
    something (and whose sampling distribution [np.random.choice]
    accepts) raises: the draw returns no index, the array of weights
    is empty, and its maximum, by which the weights are divided, does
    not exist. *)
Theorem sample_zero_batch (b : t F) (beta : F) (g : RandomState) :
  buffer b ≠ [] → length (buffer b) ≤ length (priorities b) →
  np_valid_p (probabilities b) = true →
  ∃ g', sample 0 beta b g
        = (Raise (ValueError
                    "zero-size array to reduction operation maximum which has no identity"),
           g').
Proof.
  intros Hne Hle Hvalid.
  assert (0 < length (buffer b)) as Hn by (destruct (buffer b); [done|simpl; lia]).
  pose proof (BufferFacts.length_probabilities b Hle) as Hpl.
  destruct (np_random_choice_total g (length (buffer b)) 0 (probabilities b))
    as (indices & g' & Hchoice); [lia|lia|exact Hpl|exact Hvalid|].
  destruct (np_random_choice_sound _ _ _ _ _ _ Hchoice) as [Hlen _].
  destruct indices as [|i indices]; [|simpl in Hlen; lia].
  exists g'. unfold sample. replace (length (buffer b) =? 0) with false
    by (symmetry; apply Nat.eqb_neq; lia).
  run_method. rewrite Hchoice. reflexivity.
Qed.

End Facts.
End StoreRuns.

(** ** Calls of [optimize_model] that sample *)

Module LearningSteps.
Import PrioritizedReplayBuffer DQNAgent.
Section Facts.
Context {F : Type} `{Torch F} `{Numpy F} `{!NumpySpec F}.

(** [max(1)[1]] on a row that is not empty. *)
Lemma torch_argmax_ok (q : list F) :
  q ≠ [] → ∃ i, torch_argmax q = Ok i ∧ i < length q.
Proof.
  destruct q as [|x xs]; [done|]. intros _.
  destruct (AgentFacts.argmax_from_spec [x] xs x 0 eq_refl) as [_ Hlt].
  by exists (argmax_from x 0 1 xs).
Qed.

(** A batch drawn from a store that holds something. *)
Lemma sample_returns (b : PrioritizedReplayBuffer.t F) (batch_size : Z) (beta : F)
    (g : RandomState) :
  buffer b ≠ [] → length (buffer b) ≤ length (priorities b) →
  (1 ≤ batch_size)%Z → np_valid_p (probabilities b) = true →
  ∃ batch indices weights g',
    sample batch_size beta b g = (Ok (batch, indices, weights), g')
    ∧ Z.of_nat (length batch) = batch_size
    ∧ length indices = length batch
    ∧ length weights = length batch
    ∧ Forall (λ i, i < length (buffer b)) indices
    ∧ (∀ k i, indices !! k = Some i → batch !! k = buffer b !! i).
Proof.
  intros Hne Hle Hsize Hvalid.
  assert (0 < length (buffer b)) as Hn by (destruct (buffer b); [done|simpl; lia]).
  pose proof (BufferFacts.length_probabilities b Hle) as Hpl.
  destruct (np_random_choice_total g (length (buffer b)) batch_size (probabilities b))
    as (indices & g' & Hchoice); [lia|lia|exact Hpl|exact Hvalid|].
  destruct (np_random_choice_sound _ _ _ _ _ _ Hchoice) as [Hlen Hrange].
  destruct (mapR_getitem (probabilities b) indices) as (drawn & Hdrawn & Hdl & _).
  { by rewrite Hpl. }
  destruct (mapR_getitem (buffer b) indices Hrange) as (batch & Hbatch & Hbl & Hnth).
  unfold sample. replace (length (buffer b) =? 0) with false
    by (symmetry; apply Nat.eqb_neq; lia).
  run_method. rewrite Hchoice. simpl. rewrite Hdrawn. simpl.
  destruct drawn as [|p drawn]; [simpl in Hdl; lia|].
  simpl. rewrite Hbatch.
  eexists _, _, _, _. split; [reflexivity|].
  split_and!; try done.
  - lia.
  - simpl. rewrite !length_map. simpl in Hdl. lia.
Qed.

(** The transitions of a batch are transitions of the store. *)
Lemma batch_of_store {A} (P : A → Prop) (store batch : list A) (indices : list nat) :
  Forall P store → length indices = length batch →
  (∀ k i, indices !! k = Some i → batch !! k = store !! i) →
  Forall P batch.
Proof.
  intros Hstore Hlen Hat. apply Forall_lookup. intros k x Hk.
  destruct (lookup_lt_is_Some_2 indices k) as [i Hi].
  { rewrite Hlen. by eapply lookup_lt_Some. }
  rewrite (Hat k i Hi) in Hk. rewrite Forall_lookup in Hstore. by eapply Hstore.
Qed.

(** On networks that have their shapes, with at least one action, the
    targets of a batch are computed without an exception. *)
Lemma double_q_targets_ok (policy target : DQNetwork F) (gamma : F)
    (batch : list (Transition F)) (sd hd ad : nat) :
  shape_of policy = architecture sd hd ad → shape_of target = shape_of policy →
  0 < ad →
  ∃ m, double_q_targets policy target gamma batch = Ok m.
Proof.
  intros Hp Ht Had. rewrite Hp in Ht.
  unfold double_q_targets. run_method.
  destruct (mapR_ok (λ s, torch_argmax (forward policy s)) (map next_state batch))
    as [next_actions Ha].
  { apply Forall_forall. intros s _.
    pose proof (AgentFacts.forward_length policy s _ _ _ Hp) as Hlen.
    destruct (torch_argmax_ok (forward policy s)) as (i & Hi & _).
    - intros Hnil. rewrite Hnil in Hlen. simpl in Hlen. lia.
    - by exists i. }
  rewrite Ha.
  destruct (mapR_ok (λ xy : list F * Z, torch_gather xy.1 xy.2)
              (zip (map (forward target) (map next_state batch))
                   (map Z.of_nat next_actions))) as [values Hv].
  { apply Forall_lookup. intros k [row index] Hk.
    apply lookup_zip_with_Some in Hk as (row' & index' & Heq & Hrow & Hindex).
    inversion Heq; subst row' index'.
    rewrite !list_lookup_fmap in Hrow.
    destruct (batch !! k) as [tr|] eqn:Htr; [|discriminate]. cbn in Hrow.
    inversion Hrow; subst row.
    rewrite list_lookup_fmap in Hindex.
    destruct (next_actions !! k) as [i|] eqn:Hik; [|discriminate]. cbn in Hindex.
    inversion Hindex; subst index.
    destruct (mapR_lookup _ _ _ k (next_state tr) Ha) as (i' & Harg & Hi').
    { by rewrite list_lookup_fmap, Htr. }
    rewrite Hik in Hi'. inversion Hi'; subst i'.
    pose proof (AgentFacts.forward_length policy (next_state tr) _ _ _ Hp) as Hlp.
    pose proof (AgentFacts.forward_length target (next_state tr) _ _ _ Ht) as Hlt.
    destruct (torch_argmax_ok (forward policy (next_state tr))) as (j & Hj & Hjlt).
    { intros Hnil. rewrite Hnil in Hlp. simpl in Hlp. lia. }
    rewrite Hj in Harg. inversion Harg; subst j.
    cbn [fst snd]. unfold torch_gather.
    replace ((0 <=? Z.of_nat i)%Z && (Z.of_nat i <? Z.of_nat (length (forward target (next_state tr))))%Z)
      with true by (symmetry; apply andb_true_intro; split;
                    [apply Z.leb_le|apply Z.ltb_lt]; lia).
    rewrite Nat2Z.id. unfold getitem.
    destruct (lookup_lt_is_Some_2 (forward target (next_state tr)) i) as [v Hv]; [lia|].
    rewrite Hv. by exists v. }
  unfold zipR. rewrite Hv. by eexists.
Qed.

(** The values of the actions taken, for actions within the range. *)
Lemma current_q_ok (net : DQNetwork F) (batch : list (Transition F)) (sd hd ad : nat) :
  shape_of net = architecture sd hd ad →
  Forall (λ tr, (0 ≤ action tr < Z.of_nat ad)%Z) batch →
  ∃ c, current_q net batch = Ok c ∧ length c = length batch.
Proof.
  intros Hp Hact. unfold current_q, zipR.
  destruct (mapR_ok (λ xy : list F * Z, torch_gather xy.1 xy.2)
              (zip (map (forward net) (map state batch)) (map action batch))) as [c Hc].
  { apply Forall_lookup. intros k [row index] Hk.
    apply lookup_zip_with_Some in Hk as (row' & index' & Heq & Hrow & Hindex).
    inversion Heq; subst row' index'.
    rewrite !list_lookup_fmap in Hrow. rewrite list_lookup_fmap in Hindex.
    destruct (batch !! k) as [tr|] eqn:Htr; [|discriminate]. cbn in Hrow, Hindex.
    inversion Hrow; subst row. inversion Hindex; subst index.
    rewrite Forall_lookup in Hact. specialize (Hact k tr Htr).
    pose proof (AgentFacts.forward_length net (state tr) _ _ _ Hp) as Hlen.
    cbn [fst snd]. unfold torch_gather. rewrite Hlen.
    replace ((0 <=? action tr)%Z && (action tr <? Z.of_nat ad)%Z)
      with true by (symmetry; apply andb_true_intro; split;
                    [apply Z.leb_le|apply Z.ltb_lt]; lia).
    unfold getitem.
    destruct (lookup_lt_is_Some_2 (forward net (state tr)) (Z.to_nat (action tr)))
      as [v Hv]; [lia|].
    rewrite Hv. by exists v. }
  exists c. split; [exact Hc|].
  apply mapR_length in Hc. rewrite length_zip_with, !length_map in Hc. lia.
Qed.

(** X8.  A call of [optimize_model] that finds a batch does not get
    past line 265.  On an agent whose networks have their shapes, with
    at least one action, a batch size of at least one, at least
    [batch_size] transitions in the store, all of the configured
    dimensions, and a sampling distribution that [np.random.choice]
    accepts, the call samples a batch, computes targets, current
    values and TD errors, and raises [NameError] when it reads the
    name [F]: no loss is computed and no gradient step is taken.  The
    agent is as it was, its priorities too; the generator of
    [np.random] is the one that [sample] left. *)
Theorem optimize_model_name_error (a : t F) (g : RandomState) :
  well_formed a → (0 < action_dim (config a))%Z →
  (1 ≤ batch_size (config a))%Z →
  (batch_size (config a) ≤ Z.of_nat (length (buffer (memory a))))%Z →
  length (buffer (memory a)) ≤ length (priorities (memory a)) →
  np_valid_p (probabilities (memory a)) = true →
  Forall (stored_for (config a)) (buffer (memory a)) →
  ∃ batch indices weights g',
    sample (batch_size (config a)) (priority_beta (config a)) (memory a) g
    = (Ok (batch, indices, weights), g')
    ∧ optimize_model (a, g) = (Raise (NameError "name 'F' is not defined"), (a, g')).
Proof.
  intros [Hp Ht] Hdim Hsize Hheld Hlen Hvalid Hact.
  destruct (sample_returns (memory a) (batch_size (config a)) (priority_beta (config a)) g)
    as (batch & indices & weights & g1 & Hs & Hbl & Hil & Hwl & Hrange & Hat);
    [destruct (buffer (memory a)); [simpl in Hheld; lia|done]|exact Hlen|lia|exact Hvalid|].
  destruct (double_q_targets_ok (policy_net a) (target_net a) (gamma (config a)) batch
              _ _ _ Hp Ht) as [expected Hexp]; [lia|].
  destruct (current_q_ok (policy_net a) batch _ _ _ Hp) as (current & Hcur & Hcl).
  { eapply batch_of_store; [|exact Hil|exact Hat].
    eapply Forall_impl; [exact Hact|]. intros tr (_ & _ & Htr). cbn in Htr. lia. }
  exists batch, indices, weights, g1. split; [exact Hs|].
  unfold optimize_model. run_method. unfold this, on_generator.
  run_method. cbn [fst snd].
  rewrite (proj2 (Z.ltb_ge _ _) Hheld). cbn beta. cbn [fst snd].
  rewrite Hs. cbn [fst snd]. rewrite Hexp, Hcur.
  by rewrite AgentFacts.load_global_F.
Qed.

End Facts.

Section Frame.
Context {F : Type} `{Torch F} `{Numpy F}.

(** Every way a call of [optimize_model] can end, as to the store and
    the writer. *)
Lemma optimize_model_effects (a : t F) (g : RandomState) :
  ∃ r a' g', optimize_model (a, g) = (r, (a', g'))
    ∧ config a' = config a
    ∧ buffer (memory a') = buffer (memory a)
    ∧ position (memory a') = position (memory a)
    ∧ capacity (memory a') = capacity (memory a)
    ∧ length (priorities (memory a')) = length (priorities (memory a))
    ∧ ((steps a' = steps a ∧ epsilon a' = epsilon a ∧ writer a' = writer a)
       ∨ ∃ loss, r = Ok loss ∧ steps a' = (steps a + 1)%Z
           ∧ writer a' = writer a ++ [("Loss", loss, steps a');
                                      ("Epsilon", epsilon a', steps a');
                                      ("Buffer Size",
                                       f_of_nat (length (buffer (memory a))), steps a')]).
Proof.
  destruct (AgentFacts.optimize_model_outcome a g) as [[_ Hrun]|(_ & e & g' & Hrun & _)];
    eexists _, a, _; (split; [exact Hrun|]); split_and!; try done; by left.
Qed.

(** X11.  Whatever a call of [optimize_model] does, it leaves the
    configuration, the transitions held, the write cursor, the
    capacity and the length of the priority array alone.  And either
    step counter, epsilon and writer are as before, or the call
    returned a loss, advanced the step counter by one and appended
    exactly three records to the writer, in the order loss, epsilon,
    buffer size, each tagged with the new step counter. *)
Theorem optimize_model_frame (a : t F) (g : RandomState) :
  ∃ r a' g', optimize_model (a, g) = (r, (a', g'))
    ∧ config a' = config a
    ∧ buffer (memory a') = buffer (memory a)
    ∧ position (memory a') = position (memory a)
    ∧ capacity (memory a') = capacity (memory a)
    ∧ length (priorities (memory a')) = length (priorities (memory a))
    ∧ ((steps a' = steps a ∧ epsilon a' = epsilon a ∧ writer a' = writer a)
       ∨ ∃ loss, r = Ok loss ∧ steps a' = (steps a + 1)%Z
           ∧ writer a' = writer a ++ [("Loss", loss, steps a');
                                      ("Epsilon", epsilon a', steps a');
                                      ("Buffer Size",
                                       f_of_nat (length (buffer (memory a))), steps a')]).
Proof. exact (optimize_model_effects a g). Qed.

End Frame.
End LearningSteps.

(** ** Construction, saving and targets *)

Module AgentLife.
Import PrioritizedReplayBuffer DQNAgent.
Section Facts.
Context {F : Type} `{Torch F} `{Numpy F}.

(** X7.  On an agent as [__init__] leaves it, with a batch size of at
    least one, [optimize_model] returns 0.0, and however many times it
    is called the agent stays as constructed: the store empty, epsilon
    at [epsilon_start], the step counter at 0, the target parameters
    equal to the online ones; the generator is not advanced. *)
Theorem fresh_agent_idle (cfg : DQNConfig F) (net : DQNetwork F) (g : RandomState)
    (n : nat) :
  (1 ≤ batch_size cfg)%Z →
  optimize_model (__init__ cfg net, g) = (Ok f_zero, (__init__ cfg net, g))
  ∧ run (replicate n Optimize) (__init__ cfg net, g) = (__init__ cfg net, g).
Proof.
  intros Hsize.
  assert (optimize_model (__init__ cfg net, g) = (Ok f_zero, (__init__ cfg net, g))) as Hidle.
  { apply AgentFacts.optimize_model_few. cbn. lia. }
  split; [exact Hidle|].
  induction n as [|n IH]; [reflexivity|].
  cbn [replicate]. unfold run in *. cbn [foldl run_event]. by rewrite Hidle.
Qed.

(** X15.  A call of [save_model] on an agent writes nothing: the
    lookup of the method raises [AttributeError], for every agent and
    every path, before the function of the first class statement
    (lines 207-217, which [save_model] stands for) could run.  Agent
    and files are as they were. *)
Theorem save_model_unbound {Files : Type} (save_model : string → M (t F * Files) unit)
    (path : string) (self : t F) (files : Files) :
  method "save_model" (save_model path) (self, files)
  = (Raise (AttributeError "'DQNAgent' object has no attribute 'save_model'"),
     (self, files)).
Proof. by rewrite (AgentFacts.method_missing "save_model"). Qed.

End Facts.

Section Targets.
Context {F : Type} `{Scalar F}.

(** X14.  What lines 259-262 compute for a batch of B transitions: a
    matrix of B rows of B entries, whose entry (i, j) is
    [reward_j + (1 - done_j) * gamma * v_i], with [v_i] the value the
    target network gives to the next state of transition i at the
    online network's best action for it. *)
Theorem double_q_targets_matrix (policy_net target_net : DQNetwork F) (gamma : F)
    (batch : list (Transition F)) (m : list (list F)) :
  double_q_targets policy_net target_net gamma batch = Ok m →
  length m = length batch
  ∧ ∀ i j tri trj, batch !! i = Some tri → batch !! j = Some trj →
      ∃ a v row,
        torch_argmax (forward policy_net (next_state tri)) = Ok a
        ∧ torch_gather (forward target_net (next_state tri)) (Z.of_nat a) = Ok v
        ∧ m !! i = Some row ∧ length row = length batch
        ∧ row !! j = Some (f_add (reward trj)
                             (f_mul (f_mul (f_sub f_one (f_of_bool (done trj))) gamma) v)).
Proof.
  intros Hm. destruct (StepFacts.double_q_targets_shape _ _ _ _ _ Hm) as [Hrows Hcols].
  split; [exact Hrows|]. intros i j tri trj Hi Hj.
  destruct (TargetFacts.double_q_targets_entry _ _ _ _ _ i j tri trj Hm Hi Hj)
    as (a & v & row & Ha & Hv & Hrow & Hentry).
  exists a, v, row. split_and!; try done.
  rewrite Forall_lookup in Hcols. by eapply Hcols.
Qed.

End Targets.
End AgentLife.

(** ** The store along the runs of an agent *)

Module RunFacts.
Import PrioritizedReplayBuffer DQNAgent.
Section Facts.
Context {F : Type} `{Torch F} `{Numpy F}.

(** What [push] does to a store that has a place and a priority slot
    per place, whatever its priorities are. *)
Lemma push_sized (b : PrioritizedReplayBuffer.t F) pushed tr :
  0 < capacity b → length (priorities b) = capacity b → ring_of b pushed →
  ∃ m, push tr b =
    (Ok tt,
     mkBuffer (capacity b) (alpha b) (<[position b := m]> (priorities b))
              (if length (buffer b) <? capacity b then buffer b ++ [tr]
               else <[position b := tr]> (buffer b))
              ((position b + 1) `mod` capacity b)).
Proof.
  intros Hc Hlen Hring.
  pose proof (BufferFacts.ring_position_lt b pushed Hc Hring) as Hpos.
  assert (∃ m, max_priority b = Ok m) as [m Hm].
  { unfold max_priority. destruct (buffer b); [by eexists|].
    destruct (priorities b); [simpl in Hlen; lia|]. by eexists. }
  exists m.
  assert (Z.to_nat ((Z.of_nat (position b) + 1) `mod` Z.of_nat (capacity b))
          = (position b + 1) `mod` capacity b) as Hnext.
  { rewrite <- (Nat2Z.id ((position b + 1) `mod` capacity b)). f_equal.
    rewrite Nat2Z.inj_mod. f_equal. lia. }
  assert ((Z.of_nat (capacity b) =? 0)%Z = false) as Hcz by (apply Z.eqb_neq; lia).
  unfold push. run_method. rewrite Hm.
  destruct (length (buffer b) <? capacity b) eqn:Hfull; simpl.
  - unfold np_setitem. rewrite np_index_of_nat by (simpl; lia). simpl.
    unfold py_mod. rewrite Hcz. unfold set_position; simpl. by rewrite Hnext.
  - apply Nat.ltb_ge in Hfull.
    destruct (BufferFacts.ring_full b pushed Hring ltac:(lia)) as [_ Hl].
    unfold list_setitem. replace (position b <? length (buffer b)) with true
      by (symmetry; apply Nat.ltb_lt; lia).
    simpl. unfold np_setitem. rewrite np_index_of_nat by (simpl; lia). simpl.
    unfold py_mod. rewrite Hcz. unfold set_position; simpl. by rewrite Hnext.
Qed.

Lemma ring_push_sized (b : PrioritizedReplayBuffer.t F) pushed tr :
  0 < capacity b → length (priorities b) = capacity b → ring_of b pushed →
  let b' := after (push tr) b in
  ring_of b' (pushed ++ [tr]) ∧ capacity b' = capacity b
  ∧ length (priorities b') = capacity b.
Proof.
  intros Hc Hlen Hring. cbn zeta.
  destruct (push_sized b pushed tr Hc Hlen Hring) as [m Hrun].
  unfold after. rewrite Hrun. cbn [snd capacity priorities].
  pose proof (BufferFacts.ring_position_lt b pushed Hc Hring) as Hpos.
  pose proof Hring as [Hp Hl Hs].
  split; [|by rewrite length_insert].
  split; simpl; rewrite length_app; simpl.
  - rewrite Hp. rewrite Nat.Div0.add_mod_idemp_l. reflexivity.
  - destruct (length (buffer b) <? capacity b) eqn:Hfull.
    + apply Nat.ltb_lt in Hfull. rewrite length_app; simpl. lia.
    + apply Nat.ltb_ge in Hfull. rewrite length_insert. lia.
  - intros k Hk Hwin.
    destruct (decide (k = length pushed)) as [->|Hne].
    + rewrite lookup_app_r by lia. rewrite Nat.sub_diag. simpl.
      rewrite <- Hp.
      destruct (length (buffer b) <? capacity b) eqn:Hfull.
      * apply Nat.ltb_lt in Hfull.
        destruct (BufferFacts.ring_not_full b pushed Hring Hfull) as [_ Hpl].
        rewrite Hpl. rewrite lookup_app_r by lia. by rewrite Nat.sub_diag.
      * apply Nat.ltb_ge in Hfull.
        destruct (BufferFacts.ring_full b pushed Hring ltac:(lia)) as [_ Hfl].
        apply list_lookup_insert_eq. lia.
    + rewrite lookup_app_l by lia.
      assert (k `mod` capacity b ≠ position b) as Hslot.
      { rewrite Hp. apply mod_slots_differ; lia. }
      rewrite <- (Hs k) by lia.
      destruct (length (buffer b) <? capacity b) eqn:Hfull.
      * apply Nat.ltb_lt in Hfull.
        destruct (BufferFacts.ring_not_full b pushed Hring Hfull) as [Hn Hpl].
        rewrite lookup_app_l; [reflexivity|].
        rewrite Nat.mod_small by lia. lia.
      * by rewrite list_lookup_insert_ne.
Qed.

Lemma pushed_of_snoc (evs : list (event (F:=F))) (ev : event) :
  pushed_of (evs ++ [ev])
  = pushed_of evs ++ match ev with Push tr => [tr] | Optimize => [] end.
Proof.
  unfold pushed_of. rewrite omap_app. f_equal. by destruct ev.
Qed.

(** X23.  However pushes and calls of [optimize_model] follow each
    other on an agent constructed with a positive [buffer_size], and
    whether or not those calls raise, the store holds the transitions
    pushed so far in their ring order: the last [buffer_size] of them
    (all of them while they are fewer), the k-th one in slot
    [k mod buffer_size], with the cursor at their number modulo
    [buffer_size].  The store never holds more than [buffer_size]
    transitions, and capacity and length of the priority array stay
    [buffer_size]. *)
Theorem store_along_run (cfg : DQNConfig F) (net : DQNetwork F) (g : RandomState)
    (evs : list event) :
  0 < buffer_size cfg →
  let b := memory (run evs (__init__ cfg net, g)).1 in
  ring_of b (pushed_of evs)
  ∧ capacity b = buffer_size cfg
  ∧ length (priorities b) = buffer_size cfg
  ∧ length (buffer b) ≤ buffer_size cfg.
Proof.
  intros Hc. cbn zeta.
  assert (ring_of (memory (run evs (__init__ cfg net, g)).1) (pushed_of evs)
          ∧ capacity (memory (run evs (__init__ cfg net, g)).1) = buffer_size cfg
          ∧ length (priorities (memory (run evs (__init__ cfg net, g)).1))
            = buffer_size cfg) as (Hring & Hcap & Hlen).
  { induction evs as [|ev evs (Hring & Hcap & Hlen)] using rev_ind.
    - cbn. split; [by apply BufferFacts.ring_init|]. split; [reflexivity|].
      apply length_replicate.
    - rewrite AgentFacts.run_snoc, pushed_of_snoc.
      destruct (run evs (__init__ cfg net, g)) as [a1 g1]. cbn [fst] in *.
      destruct ev as [tr|].
      + unfold run_event, on_self. run_method. cbn [fst snd].
        destruct (ring_push_sized (memory a1) (pushed_of evs) tr)
          as (Hring' & Hcap' & Hlen'); [lia|lia|exact Hring|].
        unfold after in *. destruct (push tr (memory a1)) as [r m]. cbn [snd] in *.
        cbn. split; [exact Hring'|]. split; lia.
      + rewrite app_nil_r. unfold run_event.
        destruct (LearningSteps.optimize_model_effects a1 g1)
          as (r & a2 & g2 & -> & _ & Hbuf & Hpos & Hcap2 & Hlen2 & _).
        cbn [fst snd]. destruct Hring as [Hp Hl Hs].
        split; [|split; lia].
        split; rewrite ?Hbuf, ?Hpos, ?Hcap2; done. }
  split_and!; try done.
  rewrite (ring_length _ _ Hring), Hcap. lia.
Qed.

(** X24.  The indices that [sample] returned can be handed back to
    [update_priorities]: with one scalar priority for each of them, on
    a store that has a priority slot for every transition held, the
    update does not raise, changes nothing but the priority array, and
    leaves the priority of every slot that was not sampled as it
    was. *)
Theorem sampled_indices_update (b : PrioritizedReplayBuffer.t F) (batch_size : Z)
    (beta : F) (g g' : RandomState) (batch : list (Transition F)) (indices : list nat)
    (weights values : list F) :
  sample batch_size beta b g = (Ok (batch, indices, weights), g') →
  length (buffer b) ≤ length (priorities b) →
  length values = length indices →
  ∃ b', update_priorities (map Z.of_nat indices) (map np_scalar values) b = (Ok tt, b')
    ∧ buffer b' = buffer b ∧ position b' = position b ∧ capacity b' = capacity b
    ∧ length (priorities b') = length (priorities b)
    ∧ (∀ i, i ∉ indices → priorities b' !! i = priorities b !! i).
Proof.
  intros Hs Hle Hvalues.
  assert (Forall (λ i, i < length (buffer b)) indices) as Hrange.
  { unfold sample in Hs. destruct (length (buffer b) =? 0); [discriminate|].
    run_method.
    destruct (np_random_choice g _ batch_size _) as [[msg|idx] g1]; cbn in Hs;
      [discriminate|].
    destruct (mapR (getitem (probabilities b)) idx) as [drawn|e]; cbn in Hs;
      [|discriminate].
    destruct (np_max _) as [top|e]; cbn in Hs; [|discriminate].
    destruct (mapR (getitem (buffer b)) idx) as [bt|e] eqn:Hbatch; cbn in Hs;
      [|discriminate].
    inversion Hs; subst. apply Forall_lookup. intros k i Hk.
    destruct (mapR_lookup _ _ _ k i Hbatch Hk) as (tr & Hget & _).
    unfold getitem in Hget. destruct (buffer b !! i) eqn:Hi; [|discriminate].
    by eapply lookup_lt_Some. }
  destruct (StoreRuns.update_priorities_run (zip indices values) b)
    as (p' & Hrun & Hlen & Hkeep & _).
  { apply Forall_forall. intros [i x] Hin. cbn.
    apply elem_of_zip_l in Hin. rewrite Forall_forall in Hrange.
    specialize (Hrange i Hin). lia. }
  assert (map (λ w : nat * F, Z.of_nat w.1) (zip indices values) = map Z.of_nat indices)
    as Hfst.
  { rewrite <- (fst_zip indices values) at 2 by lia. by rewrite <- list_fmap_compose. }
  assert (map (λ w : nat * F, np_scalar w.2) (zip indices values) = map np_scalar values)
    as Hsnd.
  { rewrite <- (snd_zip indices values) at 2 by lia. by rewrite <- list_fmap_compose. }
  rewrite Hfst, Hsnd in Hrun.
  exists (set_priorities p' b). split; [exact Hrun|]. split_and!; try done.
  intros i Hi. apply Hkeep. by rewrite fst_zip by lia.
Qed.

End Facts.
End RunFacts.

(** ** The game around the tabular agent *)

Module GameFacts.
Import QAgent.

(** X21.  [Paddle.move] keeps a paddle that is no taller than the
    screen on the screen: after the call [y] is between 0 and
    [SCREEN_HEIGHT - height], whatever the direction and wherever the
    paddle was.  The velocity is [direction * speed] also when the
    position was clipped; the position moves by exactly the velocity
    when that stays on the screen, and from a position on the screen
    never by more; nothing else of the paddle changes. *)
Theorem move_within_screen (direction : Z) (self : PongAI.Paddle) :
  (PongAI.height self ≤ PongAI.SCREEN_HEIGHT)%Z →
  let self' := PongAI.move direction self in
  let target := (PongAI.y self + direction * PongAI.speed self)%Z in
  (0 ≤ PongAI.y self' ≤ PongAI.SCREEN_HEIGHT - PongAI.height self)%Z
  ∧ PongAI.vel self' = (direction * PongAI.speed self)%Z
  ∧ ((0 ≤ target ≤ PongAI.SCREEN_HEIGHT - PongAI.height self)%Z →
     PongAI.y self' = target)
  ∧ ((0 ≤ PongAI.y self ≤ PongAI.SCREEN_HEIGHT - PongAI.height self)%Z →
     (Z.abs (PongAI.y self' - PongAI.y self) ≤ Z.abs (direction * PongAI.speed self))%Z)
  ∧ self' = PongAI.set_y (PongAI.y self') (PongAI.set_vel (PongAI.vel self') self).
Proof.
  intros Hh. cbn. split_and!; try done; lia.
Qed.

Section Tabular.
Context {F : Type} `{PyChoice F}.

(** X22.  [set_difficulty] with one of the three difficulties of its
    dictionary installs a new agent, with a table of zeros, whose
    epsilon is the dictionary's entry instead of [EPSILON_START]; what
    an earlier agent had learnt is dropped.  With any other string it
    raises [KeyError] at the dictionary, when the game has already
    switched to the unknown difficulty and holds a new agent with
    epsilon [EPSILON_START]. *)
Theorem set_difficulty_spec (diff : string) (game : PongAI.PongGame F) :
  let fresh := QAgent.__init__ (F:=F) diff in
  (∀ e, PongAI.difficulty_epsilon (F:=F) !! diff = Some e →
        PongAI.set_difficulty diff game
        = (Ok tt, PongAI.set_agent (Some (QAgent.set_epsilon e fresh))
                                   (PongAI.set_difficulty_attr diff game)))
  ∧ (diff ≠ "easy" → diff ≠ "medium" → diff ≠ "hard" →
     PongAI.set_difficulty diff game
     = (Raise (KeyError diff),
        PongAI.set_agent (Some fresh) (PongAI.set_difficulty_attr diff game))).
Proof.
  cbn zeta. split.
  - intros e He. unfold PongAI.set_difficulty. run_method.
    unfold PongAI.dict_getitem. by rewrite He.
  - intros He Hm Hh. unfold PongAI.set_difficulty. run_method.
    unfold PongAI.dict_getitem, PongAI.difficulty_epsilon.
    rewrite !lookup_insert_ne by done. by rewrite lookup_empty.
Qed.

(** Where [locate] finds the selection, the selection lies within the
    array. *)
Lemma locate_offset (shape : list nat) (index : list Z) (offset : nat) (rest : list nat) :
  locate shape index = Ok (offset, rest) →
  offset + size_of rest ≤ size_of shape
  ∧ length shape = length index + length rest.
Proof.
  revert shape offset rest. induction index as [|i index IH]; intros shape offset rest.
  - intros Heq. destruct shape; cbn in Heq; inversion Heq; subst;
      (split; [apply Nat.le_refl|reflexivity]).
  - destruct shape as [|n shape]; [discriminate|]. cbn [locate]. run_method.
    destruct (np_index_cases n i) as [[_ (k & -> & Hk)]|[_ ->]]; [|discriminate].
    destruct (locate shape index) as [[offset' rest']|e] eqn:Hloc; [|discriminate].
    intros Heq. inversion Heq; subst.
    destruct (IH _ _ _ Hloc) as [Hle Hlen].
    change (size_of (n :: shape)) with (n * size_of shape).
    assert ((k + 1) * size_of shape ≤ n * size_of shape) as Hmul
      by (apply Nat.mul_le_mono_r; lia).
    cbn [length]. split; lia.
Qed.

Lemma locate_raise (shape : list nat) (index : list Z) (e : exn) :
  length index ≤ length shape → locate shape index = Raise e →
  e = IndexError "index out of bounds".
Proof.
  revert shape. induction index as [|i index IH]; intros shape Hlen;
    [destruct shape; discriminate|].
  destruct shape as [|n shape]; [simpl in Hlen; lia|]. cbn [locate]. run_method.
  destruct (np_index_cases n i) as [[_ (k & -> & Hk)]|[_ ->]]; [|by inversion 1].
  destruct (locate shape index) as [[offset' rest']|e'] eqn:Hloc; [discriminate|].
  intros Heq. inversion Heq; subst. eapply IH; [|exact Hloc]. simpl in Hlen. lia.
Qed.

(** [locate] accepts an index exactly when every component is within
    its axis, counted from the front or from the end. *)
Lemma locate_in_range (shape : list nat) (index : list Z) :
  length index ≤ length shape →
  (∃ r, locate shape index = Ok r)
  ↔ Forall2 (λ i n, (- Z.of_nat n ≤ i < Z.of_nat n)%Z) index (take (length index) shape).
Proof.
  revert shape. induction index as [|i index IH]; intros shape Hlen.
  - split; [constructor|]. intros _. destruct shape; by eexists.
  - destruct shape as [|n shape]; [simpl in Hlen; lia|].
    simpl in Hlen. specialize (IH shape ltac:(lia)).
    cbn [locate length take]. run_method.
    destruct (np_index_cases n i) as [[Hin (k & -> & Hk)]|[Hout ->]].
    + destruct (locate shape index) as [[offset rest]|e] eqn:Hloc.
      * split; [|by eexists]. intros _. constructor; [exact Hin|].
        apply IH. by eexists.
      * split; [by intros [? ?]|]. intros Hall. inversion Hall; subst.
        destruct (proj2 IH) as [r Hr]; [done|discriminate].
    + split; [by intros [? ?]|]. intros Hall. by inversion Hall.
Qed.

(** The branch of [select_action] that reads the table, for a state
    with as many components as the table has axes. *)
Lemma select_action_greedy (self : QAgent.t F) (state : list Z) (g : PyRandom) :
  length state = length (shape (q_table self)) →
  f_ltb (random_random g).1 (epsilon self) = false →
  (Forall2 (λ i n, (- Z.of_nat n ≤ i < Z.of_nat n)%Z) state (shape (q_table self)) →
   length (data (q_table self)) = size_of (shape (q_table self)) →
   PongAI.select_action state self g = (Ok 0%Z, (random_random g).2))
  ∧ (¬ Forall2 (λ i n, (- Z.of_nat n ≤ i < Z.of_nat n)%Z) state (shape (q_table self)) →
     PongAI.select_action state self g
     = (Raise (IndexError "index out of bounds"), (random_random g).2)).
Proof.
  intros Hstate. unfold PongAI.select_action. run_method.
  destruct (random_random g) as [u g1]. cbn [fst snd]. intros ->.
  assert (length state ≤ length (shape (q_table self))) as Hshort by lia.
  pose proof (locate_in_range (shape (q_table self)) state Hshort) as Hiff.
  rewrite Hstate, firstn_all in Hiff.
  unfold np_getitem, np_locate.
  replace (length (shape (q_table self)) <? length state) with false
    by (symmetry; apply Nat.ltb_ge; lia).
  run_method.
  destruct (locate (shape (q_table self)) state) as [[offset rest]|e] eqn:Hloc.
  - split; [|intros Hout; destruct Hout; apply Hiff; by eexists].
    intros _ Hdata.
    destruct (locate_offset _ _ _ _ Hloc) as [Hle Hlen].
    destruct rest as [|? ?]; [|simpl in Hlen; lia].
    cbn [size_of fold_right] in *. unfold PongAI.np_argmax. cbn [data].
    destruct (drop offset (data (q_table self))) as [|q qs] eqn:Hdrop; [|reflexivity].
    apply (f_equal length) in Hdrop. rewrite length_drop in Hdrop.
    simpl in Hdrop. lia.
  - split.
    + intros Hall. destruct (proj2 Hiff Hall) as [r Hr]. discriminate.
    + intros _. by rewrite (locate_raise _ _ _ Hshort Hloc).
Qed.

(** X17.  [QAgent.select_action] on a state that has as many
    components as the table has axes, as the five-component states of
    [discretize_state] have on the table of [__init__].  When the
    number drawn is below epsilon the action is what
    [random.choice(ACTIONS)] returns, one of 0, 1, 2, whatever the
    difficulty.  Otherwise the state selects a single entry of the
    table, not the row of an action each, and the argmax of a single
    entry is 0: the call returns action 0 when every component is
    within its axis and raises [IndexError] when one is not; it never
    returns 1 or 2. *)
Theorem tabular_select_action (self : QAgent.t F) (state : list Z) (g : PyRandom) :
  PyChoiceSpec F →
  length (data (q_table self)) = size_of (shape (q_table self)) →
  length state = length (shape (q_table self)) →
  let u := (random_random g).1 in
  let g1 := (random_random g).2 in
  let within := Forall2 (λ i n, (- Z.of_nat n ≤ i < Z.of_nat n)%Z) state
                        (shape (q_table self)) in
  (f_ltb u (epsilon self) = true →
   ∃ a g', PongAI.select_action state self g = (Ok a, g')
           ∧ random_choice g1 ACTIONS = (inr a, g') ∧ (0 ≤ a ≤ 2)%Z)
  ∧ (f_ltb u (epsilon self) = false →
     (within ∧ PongAI.select_action state self g = (Ok 0%Z, g1))
     ∨ (¬ within
        ∧ PongAI.select_action state self g
          = (Raise (IndexError "index out of bounds"), g1))).
Proof.
  intros Hspec Hdata Hstate. cbn zeta. split.
  - unfold PongAI.select_action. run_method.
    destruct (random_random g) as [u g1]. cbn [fst snd]. intros ->.
    destruct (random_choice_elem g1 ACTIONS ltac:(done)) as (a & g' & Hchoice & Hin).
    exists a, g'. split; [|split].
    + repeat destruct (String.eqb _ _); by rewrite Hchoice.
    + exact Hchoice.
    + unfold ACTIONS in Hin.
      repeat (apply elem_of_cons in Hin as [->|Hin]; [lia|]).
      by apply elem_of_nil in Hin.
  - intros Hgreedy.
    destruct (select_action_greedy self state g Hstate Hgreedy) as [Hin Hout].
    destruct (decide (Forall2 (λ (i : Z) (n : nat), (- Z.of_nat n ≤ i < Z.of_nat n)%Z)
                              state (shape (q_table self)))) as [Hall|Hnot].
    + left. split; [exact Hall|]. by apply Hin.
    + right. split; [exact Hnot|]. by apply Hout.
Qed.

End Tabular.

Section Decay.
Context {F : Type} `{ScalarOrder F} `{!ExactArith F}.

(** The schedule along repeated calls of [decay_epsilon]. *)
Lemma decay_epsilon_iter (self : QAgent.t F) (n : nat) :
  f_ltb (epsilon_min self) f_zero = false →
  f_ltb (epsilon_decay self) f_one = true →
  f_ltb (epsilon self) (epsilon_min self) = false →
  let later := Nat.iter n (λ s, (decay_epsilon s).2) self in
  epsilon_min later = epsilon_min self ∧ epsilon_decay later = epsilon_decay self
  ∧ f_ltb (epsilon later) (epsilon_min self) = false
  ∧ f_ltb (epsilon self) (epsilon later) = false.
Proof.
  intros Hfloor Hdecay Heps. cbn zeta.
  induction n as [|n (Hmin & Hdec & Hge & Hle)].
  - split_and!; try done. apply f_ltb_irrefl.
  - rewrite Nat.iter_succ.
    destruct (Nat.iter n (λ s, (decay_epsilon s).2) self) as [q al ga eps emin edec ls la d].
    unfold decay_epsilon, modify. cbn in *. subst emin edec. split_and!; try done.
    + apply AgentFacts.py_max2_floor.
    + eapply AgentFacts.f_le_trans; [|exact Hle].
      by apply AgentFacts.decay_noninc.
Qed.

(** X16.  [QAgent.decay_epsilon], in exact arithmetic, for a floor
    [epsilon_min] that is not negative, a rate below one and an
    epsilon that is not below the floor: the call changes epsilon and
    nothing else; the new epsilon is not below the floor and not above
    the old one, strictly below it when the old one was above the
    floor, and the floor when the old one was the floor.  After any
    number of calls epsilon is still between the floor and its first
    value. *)
Theorem tabular_decay_epsilon (self : QAgent.t F) (n : nat) :
  f_ltb (epsilon_min self) f_zero = false →
  f_ltb (epsilon_decay self) f_one = true →
  f_ltb (epsilon self) (epsilon_min self) = false →
  let self' := (decay_epsilon self).2 in
  let later := Nat.iter n (λ s, (decay_epsilon s).2) self in
  decay_epsilon self = (Ok tt, set_epsilon (epsilon self') self)
  ∧ f_ltb (epsilon self') (epsilon_min self) = false
  ∧ f_ltb (epsilon self) (epsilon self') = false
  ∧ (f_ltb (epsilon_min self) (epsilon self) = true →
     f_ltb (epsilon self') (epsilon self) = true)
  ∧ (epsilon self = epsilon_min self → epsilon self' = epsilon_min self)
  ∧ f_ltb (epsilon later) (epsilon_min self) = false
  ∧ f_ltb (epsilon self) (epsilon later) = false.
Proof.
  intros Hfloor Hdecay Heps. cbn zeta.
  destruct (decay_epsilon_iter self n Hfloor Hdecay Heps) as (_ & _ & Hge & Hle).
  split_and!; [| | | | |exact Hge|exact Hle]; unfold decay_epsilon, modify; cbn [fst snd].
  - reflexivity.
  - apply AgentFacts.py_max2_floor.
  - by apply AgentFacts.decay_noninc.
  - intros Habove. by apply AgentFacts.decay_strict.
  - intros Heq. cbn. rewrite Heq. by apply AgentFacts.decay_fixed.
Qed.

End Decay.
End GameFacts.

(** ** The observed state, in exact arithmetic *)

Module CourtFacts.
Import QAgent ExactQ Examples2.

(** [int(q)] of a rational that is not negative. *)
Lemma Q_to_int_lower (q : Q) (lo : Z) :
  (0 ≤ lo)%Z → (inject_Z lo <= q)%Q → (lo ≤ f_to_int q)%Z.
Proof.
  intros Hlo Hle. destruct q as [a b]. unfold Qle in *. cbn in *.
  assert (0 ≤ a)%Z as Ha by nia.
  rewrite Z.quot_div_nonneg by lia. apply Z.div_le_lower_bound; lia.
Qed.

Ltac q_constants :=
  repeat match goal with
         | |- context [inject_Z ?z] =>
             let v := eval vm_compute in z in change (inject_Z z) with (v # 1)
         end.

(** X18.  In exact arithmetic, on a table of the shape [__init__]
    gives it: when the paddle observed is at y = 125 or below it on the
    screen (the AI paddle starts at y = 200) and the number drawn is
    not below epsilon, [select_action] on the discretized state raises
    [IndexError], wherever the ball is: the bin of the paddle, three
    or more, is used as an index into the axis of the three
    actions. *)
Theorem greedy_step_raises (self : QAgent.t Q) (ball : Ball Q) (paddle : Paddle Q)
    (g : PyRandom) :
  shape (q_table self) = STATE_BINS ++ [length ACTIONS] →
  (125 <= paddle_y paddle)%Q →
  f_ltb (random_random g).1 (epsilon self) = false →
  PongAI.select_action (discretize_state ball paddle) self g
  = (Raise (IndexError "index out of bounds"), (random_random g).2).
Proof.
  intros Hshape Hlow Hgreedy.
  apply (GameFacts.select_action_greedy self (discretize_state ball paddle) g);
    [by rewrite Hshape|exact Hgreedy|].
  rewrite Hshape. intros Hall.
  do 4 (apply Forall2_cons_1 in Hall as [_ Hall]).
  apply Forall2_cons_1 in Hall as [Hpy _].
  assert (3 ≤ f_to_int (f_div (f_mul (paddle_y paddle) (f_of_nat (bins 1)))
                                (f_of_nat SCREEN_HEIGHT)))%Z as Hbin.
  { apply Q_to_int_lower; [lia|]. cbn -[Qred Qmult Qdiv Qle inject_Z].
    rewrite !Qred_correct. apply Qle_shift_div_l; [reflexivity|].
    q_constants. lra. }
  change (Z.of_nat (length ACTIONS)) with 3%Z in Hpy. lia.
Qed.

End CourtFacts.

(** ** The further properties at concrete agents, stores and games *)

Module Instances2.
Import PrioritizedReplayBuffer DQNAgent ExactQ ExactQFacts Examples Examples2.

#[global] Instance Q_choice_spec : PyChoiceSpec Q.
Proof.
  split. intros g [|x xs] Hne; [done|].
  eexists _, _. split; [reflexivity|].
  destruct (lookup_lt_is_Some_2 (x :: xs) (g `mod` length (x :: xs))) as [y Hy].
  { apply Nat.mod_upper_bound. simpl. lia. }
  rewrite nth_lookup, Hy. by eapply list_elem_of_lookup_2.
Qed.

Lemma agent2_well_formed : well_formed agent2.
Proof. by split. Qed.

Lemma push_all_from_init_witness :
  0 < 4
  ∧ ∃ b, push_all (map numbered [1; 2; 3; 4; 5]%Z) (PrioritizedReplayBuffer.__init__ 4 1%Q)
         = (Ok tt, b)
      ∧ length (buffer b) = 4 ∧ position b = 1 ∧ Forall (λ p, p = 1%Q) (held b).
Proof.
  split; [lia|].
  destruct (StoreRuns.push_all_from_init (F:=Q) 4 1%Q (map numbered [1; 2; 3; 4; 5]%Z))
    as (b & Hrun & _ & Hlen & Hpos & _ & Hones); [lia|].
  exists b. split; [exact Hrun|]. split; [exact Hlen|]. split; [exact Hpos|exact Hones].
Defined.

Lemma push_without_capacity_witness :
  capacity store_none = 0 ∧ buffer store_none = []
  ∧ push going store_none
    = (Raise (IndexError "list assignment index out of range"), store_none).
Proof.
  split; [reflexivity|]. split; [reflexivity|].
  by apply (StoreRuns.push_without_capacity store_none going).
Defined.

Lemma writes_in_range : Forall (λ w : nat * Q, w.1 < length (priorities store5)) writes.
Proof. repeat constructor; vm_compute; lia. Qed.

Lemma update_priorities_writes_witness :
  Forall (λ w : nat * Q, w.1 < length (priorities store5)) writes
  ∧ ∃ b', update_priorities [0; 1; 0]%Z [np_scalar 3%Q; np_scalar 2%Q; np_scalar 5%Q] store5
          = (Ok tt, b')
      ∧ priorities b' !! 0 = Some 5%Q ∧ priorities b' !! 1 = Some 2%Q
      ∧ priorities b' !! 2 = priorities store5 !! 2.
Proof.
  split; [exact writes_in_range|].
  destruct (StoreRuns.update_priorities_writes writes store5 writes_in_range)
    as (b' & Hrun & _ & _ & _ & _ & _ & Hkeep & Hlast).
  exists b'. split; [exact Hrun|]. split_and!.
  - apply (Hlast [(0, 3%Q); (1, 2%Q)] 0 5%Q []); [reflexivity|]. apply not_elem_of_nil.
  - apply (Hlast [(0, 3%Q)] 1 2%Q [(0, 5%Q)]); [reflexivity|].
    cbn. intros Hin%list_elem_of_singleton. discriminate.
  - apply Hkeep. cbn. intros Hin.
    repeat (apply elem_of_cons in Hin as [Hin|Hin]; [discriminate|]).
    by apply elem_of_nil in Hin.
Defined.

Lemma update_priorities_out_of_range_witness :
  Forall (λ w : nat * Q, w.1 < length (priorities store5)) [(0, 3%Q)]
  ∧ ¬ (- Z.of_nat (length (priorities store5)) ≤ 4 < Z.of_nat (length (priorities store5)))%Z
  ∧ ∃ b', update_priorities [0; 4; 1]%Z [np_scalar 3%Q; np_scalar 9%Q; np_scalar 7%Q] store5
          = (Raise (IndexError "index out of bounds"), b')
          ∧ update_priorities [0]%Z [np_scalar 3%Q] store5 = (Ok tt, b').
Proof.
  assert (Forall (λ w : nat * Q, w.1 < length (priorities store5)) [(0, 3%Q)]) as Hin
    by (repeat constructor; vm_compute; lia).
  assert (¬ (- Z.of_nat (length (priorities store5)) ≤ 4
             < Z.of_nat (length (priorities store5)))%Z) as Hout
    by (vm_compute; intros [_ Hlt]; discriminate).
  split; [exact Hin|]. split; [exact Hout|].
  destruct (StoreRuns.update_priorities_out_of_range [(0, 3%Q)] 4 (np_scalar 9%Q)
              [1%Z] [np_scalar 7%Q] store5 Hin Hout) as (b' & Hok & Hraise).
  exists b'. by split.
Defined.

Lemma sample_zero_batch_witness :
  buffer store1 ≠ [] ∧ length (buffer store1) ≤ length (priorities store1)
  ∧ np_valid_p (probabilities store1) = true
  ∧ ∃ g', sample 0 1%Q store1 seed
          = (Raise (ValueError
                      "zero-size array to reduction operation maximum which has no identity"),
             g').
Proof.
  assert (buffer store1 ≠ []) as Hne by (by vm_compute).
  assert (length (buffer store1) ≤ length (priorities store1)) as Hle
    by (vm_compute; lia).
  assert (np_valid_p (probabilities store1) = true) as Hvalid by (by vm_compute).
  split; [exact Hne|]. split; [exact Hle|]. split; [exact Hvalid|].
  exact (StoreRuns.sample_zero_batch store1 1%Q seed Hne Hle Hvalid).
Defined.

Lemma wf_update_priorities_witness :
  wf store1 ∧ length (buffer store1) ≤ capacity store1
  ∧ (update_priorities [0%Z] [np_scalar 2%Q] store1).1 = Ok tt
  ∧ wf (after (update_priorities [0%Z] [np_scalar 2%Q]) store1).
Proof.
  destruct Instances.store1_wf as [Hwf _].
  assert (length (buffer store1) ≤ capacity store1) as Hle by (vm_compute; lia).
  split; [exact Hwf|]. split; [exact Hle|].
  apply (BufferFacts.wf_update_priorities [0%Z] [np_scalar 2%Q] store1 Hwf Hle).
  - apply Forall_cons. split; [by vm_compute|constructor].
  - apply Forall_cons. split; [|constructor]. exists 2%Q. by split.
Defined.

Lemma fresh_agent_idle_witness :
  (1 ≤ batch_size config64)%Z
  ∧ optimize_model (DQNAgent.__init__ config64 net1, seed)
    = (Ok 0%Q, (DQNAgent.__init__ config64 net1, seed))
  ∧ run (replicate 100 Optimize) (DQNAgent.__init__ config64 net1, seed)
    = (DQNAgent.__init__ config64 net1, seed).
Proof.
  assert (1 ≤ batch_size config64)%Z as Hsize by (by vm_compute).
  split; [exact Hsize|].
  exact (AgentLife.fresh_agent_idle config64 net1 seed 100 Hsize).
Defined.

Lemma actions_in_range_2 : Forall (stored_for (config agent2)) (buffer (memory agent2)).
Proof. repeat constructor; by vm_compute. Qed.

Lemma optimize_model_name_error_witness :
  well_formed agent2 ∧ (1 ≤ batch_size (config agent2))%Z
  ∧ (batch_size (config agent2) ≤ Z.of_nat (length (buffer (memory agent2))))%Z
  ∧ ∃ g', optimize_model (agent2, seed)
          = (Raise (NameError "name 'F' is not defined"), (agent2, g')).
Proof.
  split; [exact agent2_well_formed|]. split; [by vm_compute|]. split; [by vm_compute|].
  destruct (LearningSteps.optimize_model_name_error agent2 seed agent2_well_formed)
    as (batch & indices & weights & g' & _ & Hrun);
    [by vm_compute|by vm_compute|by vm_compute|vm_compute; lia|by vm_compute
    |exact actions_in_range_2|].
  by exists g'.
Defined.

Lemma optimize_model_returns_early_witness :
  optimize_model (agent64_1, seed) = (Ok 0%Q, (agent64_1, seed))
  ∧ (Z.of_nat (length (buffer (memory agent64_1))) < batch_size (config agent64_1))%Z.
Proof.
  assert (optimize_model (agent64_1, seed) = (Ok 0%Q, (agent64_1, seed))) as Hrun
    by (by vm_compute).
  split; [exact Hrun|].
  exact (proj1 (StepFacts.optimize_model_returns_early agent64_1 seed _ _ Hrun)).
Defined.

Lemma optimize_model_nonpositive_batch_witness :
  buffer (memory agent_batch0) = [] ∧ (batch_size (config agent_batch0) ≤ 0)%Z
  ∧ optimize_model (agent_batch0, seed) = (Raise EmptyBufferError, (agent_batch0, seed)).
Proof.
  split; [reflexivity|]. split; [by vm_compute|].
  apply (AgentFacts.optimize_model_nonpositive_batch agent_batch0 seed);
    [reflexivity|by vm_compute].
Defined.

Lemma double_q_targets_matrix_witness :
  double_q_targets net1 net1 (99 # 100) [going; terminal]
  = Ok [[99 # 50; 1%Q]; [297 # 100; 1%Q]]
  ∧ length [[99 # 50; 1%Q]; [297 # 100; 1%Q]] = length [going; terminal].
Proof.
  assert (double_q_targets net1 net1 (99 # 100) [going; terminal]
          = Ok [[99 # 50; 1%Q]; [297 # 100; 1%Q]]) as Hm by (by vm_compute).
  split; [exact Hm|].
  exact (proj1 (AgentLife.double_q_targets_matrix net1 net1 (99 # 100)
                  [going; terminal] _ Hm)).
Defined.

Lemma store_along_run_witness :
  0 < buffer_size config1
  ∧ ring_of (memory (run [Push terminal; Optimize; Push going] (agent0, seed)).1)
            [terminal; going]
  ∧ length (buffer (memory (run [Push terminal; Optimize; Push going] (agent0, seed)).1))
    ≤ buffer_size config1.
Proof.
  assert (0 < buffer_size config1) as Hc by (vm_compute; lia).
  split; [exact Hc|].
  destruct (RunFacts.store_along_run config1 net1 seed
              [Push terminal; Optimize; Push going] Hc) as (Hring & _ & _ & Hlen).
  split; [exact Hring|exact Hlen].
Defined.

Lemma sampled_indices_update_witness :
  sample 3 1%Q store1 seed = (Ok ([terminal; terminal; terminal], [0; 0; 0], [1%Q; 1%Q; 1%Q]), 3)
  ∧ length (buffer store1) ≤ length (priorities store1)
  ∧ ∃ b', update_priorities (map Z.of_nat [0; 0; 0]) (map np_scalar [2%Q; 3%Q; 4%Q]) store1
          = (Ok tt, b')
          ∧ buffer b' = buffer store1.
Proof.
  assert (sample 3 1%Q store1 seed
          = (Ok ([terminal; terminal; terminal], [0; 0; 0], [1%Q; 1%Q; 1%Q]), 3)) as Hs
    by (by vm_compute).
  assert (length (buffer store1) ≤ length (priorities store1)) as Hle
    by (vm_compute; lia).
  split; [exact Hs|]. split; [exact Hle|].
  destruct (RunFacts.sampled_indices_update store1 3 1%Q seed 3 _ _ _ [2%Q; 3%Q; 4%Q]
              Hs Hle eq_refl) as (b' & Hrun & Hbuf & _).
  exists b'. split; [exact Hrun|exact Hbuf].
Defined.

Lemma move_within_screen_witness :
  (PongAI.height right_paddle0 ≤ PongAI.SCREEN_HEIGHT)%Z
  ∧ (0 ≤ PongAI.y (PongAI.move 1 right_paddle0)
     ≤ PongAI.SCREEN_HEIGHT - PongAI.height right_paddle0)%Z
  ∧ PongAI.vel (PongAI.move 1 right_paddle0) = (1 * PongAI.speed right_paddle0)%Z.
Proof.
  assert (PongAI.height right_paddle0 ≤ PongAI.SCREEN_HEIGHT)%Z as Hh by (by vm_compute).
  split; [exact Hh|].
  destruct (GameFacts.move_within_screen 1 right_paddle0 Hh) as (Hy & Hvel & _).
  by split.
Defined.

Lemma tabular_select_action_witness :
  length (QAgent.data (QAgent.q_table tabular))
  = QAgent.size_of (QAgent.shape (QAgent.q_table tabular))
  ∧ length [0; 0; 0; 0; 0]%Z = length (QAgent.shape (QAgent.q_table tabular))
  ∧ (f_ltb (random_random py_seed5).1 (QAgent.epsilon tabular) = false →
     PongAI.select_action [0; 0; 0; 0; 0]%Z tabular py_seed5
     = (Ok 0%Z, (random_random py_seed5).2)
     ∨ PongAI.select_action [0; 0; 0; 0; 0]%Z tabular py_seed5
       = (Raise (IndexError "index out of bounds"), (random_random py_seed5).2)).
Proof.
  assert (length (QAgent.data (QAgent.q_table tabular))
          = QAgent.size_of (QAgent.shape (QAgent.q_table tabular))) as Hdata
    by (by vm_compute).
  split; [exact Hdata|]. split; [reflexivity|].
  destruct (GameFacts.tabular_select_action tabular [0; 0; 0; 0; 0]%Z py_seed5
              Q_choice_spec Hdata eq_refl) as [_ Hgreedy].
  intros Hu. destruct (Hgreedy Hu) as [[_ Hok]|[_ Hraise]]; [by left|by right].
Defined.

Lemma tabular_decay_epsilon_witness :
  f_ltb (QAgent.epsilon_min tabular) f_zero = false
  ∧ f_ltb (QAgent.epsilon_decay tabular) f_one = true
  ∧ f_ltb (QAgent.epsilon tabular) (QAgent.epsilon_min tabular) = false
  ∧ f_ltb (QAgent.epsilon (QAgent.decay_epsilon tabular).2) (QAgent.epsilon tabular) = true
  ∧ f_ltb (QAgent.epsilon (Nat.iter 1000 (λ s, (QAgent.decay_epsilon s).2) tabular))
          (QAgent.epsilon_min tabular) = false.
Proof.
  split; [by vm_compute|]. split; [by vm_compute|]. split; [by vm_compute|].
  destruct (GameFacts.tabular_decay_epsilon tabular 1000)
    as (_ & _ & _ & Hstrict & _ & Hfloor & _); [by vm_compute..|].
  split; [apply Hstrict; by vm_compute|exact Hfloor].
Defined.

Lemma greedy_step_raises_witness :
  QAgent.shape (QAgent.q_table tabular) = QAgent.STATE_BINS ++ [length QAgent.ACTIONS]
  ∧ (125 <= QAgent.paddle_y observed_paddle0)%Q
  ∧ f_ltb (random_random py_seed5).1 (QAgent.epsilon tabular) = false
  ∧ PongAI.select_action (QAgent.discretize_state ball0 observed_paddle0) tabular py_seed5
    = (Raise (IndexError "index out of bounds"), (random_random py_seed5).2).
Proof.
  split; [reflexivity|]. split; [by vm_compute|]. split; [by vm_compute|].
  apply (CourtFacts.greedy_step_raises tabular ball0 observed_paddle0 py_seed5);
    [reflexivity|by vm_compute..].
Defined.

Lemma update_rule_witness :
  QAgent.np_locate (QAgent.q_table (QAgent.__init__ (F:=Q) "medium")) ([0; 0; 0; 0] ++ [0])%Z
  = Ok (0, [])
  ∧ QAgent.update [0; 0; 0; 0]%Z 0 1%Q [0; 0; 0; 0]%Z (QAgent.__init__ "medium")
    = (Ok tt,
       QAgent.set_q_table
         (QAgent.mkArray
            (QAgent.shape (QAgent.q_table (QAgent.__init__ (F:=Q) "medium")))
            (<[0 := f_add 0%Q (f_mul (QAgent.alpha (QAgent.__init__ (F:=Q) "medium"))
                                 (f_sub (f_add 1%Q
                                           (f_mul (QAgent.gamma (QAgent.__init__ (F:=Q) "medium"))
                                                  0%Q)) 0%Q))]>
               (QAgent.data (QAgent.q_table (QAgent.__init__ (F:=Q) "medium")))))
         (QAgent.__init__ "medium")).
Proof.
  split; [reflexivity|].
  apply (TabularFacts.update_rule (QAgent.__init__ (F:=Q) "medium") [0; 0; 0; 0]%Z
           [0; 0; 0; 0]%Z 0 1%Q 0 0 [3] 0%Q 0%Q); reflexivity.
Defined.

End Instances2.
